(** * Breathing-LED pattern firmware (HelloWorld.c): model and properties

    The firmware drives three LEDs through the LEDC PWM peripheral of an
    ESP32.  The C functions are embedded as programs of a small monad over
    the peripheral's registers: a program either finishes with a new machine
    and the events it emitted, aborts (a failed [ESP_ERROR_CHECK]), or steps
    out of the C language (an array read outside [leds]).

    C [int] values are integers of [Z].  Every counter of the program stays
    between -10 and 1033, so 32-bit arithmetic never wraps on them. *)

From Equations Require Import Equations.
From stdpp Require Import gmap list strings.
From Stdlib Require Import ZArith Lia.

Local Open Scope Z_scope.

(** ** Types of the ESP-IDF headers (driver/ledc.h, esp_err.h) *)

(** Enumerations of the headers are numbered as the headers number them;
    only the identity of a value matters below. *)
Definition gpio_num_t := Z.
Definition ledc_channel_t := Z.
Definition ledc_mode_t := Z.
Definition ledc_timer_t := Z.
Definition ledc_timer_bit_t := Z.
Definition ledc_clk_cfg_t := Z.
Definition esp_err_t := Z.

Definition GPIO_NUM_2 : gpio_num_t := 2.
Definition GPIO_NUM_4 : gpio_num_t := 4.
Definition GPIO_NUM_5 : gpio_num_t := 5.

Definition LEDC_CHANNEL_0 : ledc_channel_t := 0.
Definition LEDC_CHANNEL_1 : ledc_channel_t := 1.
Definition LEDC_CHANNEL_2 : ledc_channel_t := 2.

Definition LEDC_LOW_SPEED_MODE : ledc_mode_t := 1.
Definition LEDC_TIMER_0 : ledc_timer_t := 0.
Definition LEDC_TIMER_10_BIT : ledc_timer_bit_t := 10.
Definition LEDC_AUTO_CLK : ledc_clk_cfg_t := 0.

Definition ESP_OK : esp_err_t := 0.
Definition ESP_FAIL : esp_err_t := -1.

Record ledc_timer_config_t := {
  tc_speed_mode : ledc_mode_t;
  tc_timer_num : ledc_timer_t;
  tc_duty_resolution : ledc_timer_bit_t;
  tc_freq_hz : Z;
  tc_clk_cfg : ledc_clk_cfg_t
}.

Record ledc_channel_config_t := {
  cc_speed_mode : ledc_mode_t;
  cc_channel : ledc_channel_t;
  cc_timer_sel : ledc_timer_t;
  cc_gpio_num : gpio_num_t;
  cc_duty : Z;
  cc_hpoint : Z
}.

(** A delay is kept as the milliseconds handed to [pdMS_TO_TICKS]: the tick
    rate is a build setting outside the program. *)
Inductive TickType_t := pdMS_TO_TICKS (ms : Z).

(** ** Configuration of HelloWorld.c *)

Definition LED1_GPIO := GPIO_NUM_2.
Definition LED2_GPIO := GPIO_NUM_4.
Definition LED3_GPIO := GPIO_NUM_5.

Definition LED1_CH := LEDC_CHANNEL_0.
Definition LED2_CH := LEDC_CHANNEL_1.
Definition LED3_CH := LEDC_CHANNEL_2.

Definition LED_MODE := LEDC_LOW_SPEED_MODE.
Definition LED_TIMER := LEDC_TIMER_0.
Definition LED_DUTY_RES := LEDC_TIMER_10_BIT.
Definition LED_FREQ_HZ : Z := 5000.

Definition STEP_DELAY : Z := 10.
Definition BLINK_DELAY : Z := 300.

Record led_t := { gpio : gpio_num_t; channel : ledc_channel_t }.

Definition leds : list led_t :=
  [ {| gpio := LED1_GPIO; channel := LED1_CH |};
    {| gpio := LED2_GPIO; channel := LED2_CH |};
    {| gpio := LED3_GPIO; channel := LED3_CH |} ].

Definition LED_COUNT : Z := Z.of_nat (length leds).

(** The largest duty of the configured resolution: 2^10 - 1. *)
Definition max_duty : Z := 2 ^ LED_DUTY_RES - 1.

(** ** Machine and events *)

(** The LEDC registers and the state of the C library's generator.  A duty
    is first latched ([ledc_set_duty]) and reaches the output when it is
    committed ([ledc_update_duty]).  Registers are named by speed mode and
    channel (or timer). *)
Record machine := {
  timers : gmap (Z * Z) ledc_timer_config_t;
  bound : gmap (Z * Z) ledc_channel_config_t;
  latched : gmap (Z * Z) Z;
  committed : gmap (Z * Z) Z;
  rand_state : Z
}.

Definition power_on : machine :=
  {| timers := ∅; bound := ∅; latched := ∅; committed := ∅; rand_state := 1 |}.

(** What a run lets the outside see, in order.  [EvEnter_*] mark the entry
    of a C function; they are bookkeeping of the model, used to state which
    calls a pattern makes. *)
Inductive event :=
| EvLog (tag fmt : string) (args : list Z)
| EvTimerConfig (cfg : ledc_timer_config_t) (r : esp_err_t)
| EvChannelConfig (cfg : ledc_channel_config_t) (r : esp_err_t)
| EvSetDuty (mode : ledc_mode_t) (ch : ledc_channel_t) (duty : Z)
| EvUpdateDuty (mode : ledc_mode_t) (ch : ledc_channel_t)
| EvDelay (t : TickType_t)
| EvRand (r : Z)
| EvTaskCreate (name : string) (stack_depth priority : Z)
| EvEnter_led_set_brightness (led_index duty : Z)
| EvEnter_led_breathe (led_index : Z).

Inductive outcome (A : Type) :=
| Done (a : A) (m : machine) (evs : list event)
| Abort (code : esp_err_t) (evs : list event)
| Undefined (evs : list event).
Arguments Done {A} a m evs.
Arguments Abort {A} code evs.
Arguments Undefined {A} evs.

(** ** The monad of programs *)

Definition M (A : Type) : Type := machine -> outcome A.

Definition ret {A} (a : A) : M A := fun m => Done a m [].

Definition bind {A B} (c : M A) (k : A -> M B) : M B :=
  fun m =>
    match c m with
    | Done a m1 e1 =>
        match k a m1 with
        | Done b m2 e2 => Done b m2 (e1 ++ e2)
        | Abort code e2 => Abort code (e1 ++ e2)
        | Undefined e2 => Undefined (e1 ++ e2)
        end
    | Abort code e1 => Abort code e1
    | Undefined e1 => Undefined e1
    end.

Declare Scope prog_scope.
Delimit Scope prog_scope with prog.
Notation "x <- c ;; k" := (bind c (fun x => k))
  (at level 100, c at next level, right associativity) : prog_scope.
Notation "c ;; k" := (bind c (fun _ => k))
  (at level 100, right associativity) : prog_scope.
Local Open Scope prog_scope.

Definition emit (e : event) : M unit := fun m => Done tt m [e].
Definition get : M machine := fun m => Done m m [].
Definition put (m : machine) : M unit := fun _ => Done tt m [].
Definition abort {A} (code : esp_err_t) : M A := fun _ => Abort code [].
Definition undefined {A} : M A := fun _ => Undefined [].

(** [a[i]] on a C array: defined inside the array only. *)
Definition index {A} (a : list A) (i : Z) : M A :=
  if i <? 0 then undefined
  else match a !! Z.to_nat i with
       | Some x => ret x
       | None => undefined
       end.

(** ** C [for] loops

    [for (int i = a; i < n; i += step) body], and the three other shapes the
    program uses.  A step is a positive constant, so each loop ends: the
    distance to the bound shrinks at every round. *)

Equations? for_lt (i n : Z) (step : positive) (body : Z -> M unit) : M unit
  by wf (Z.to_nat (n - i)) lt :=
  for_lt i n step body with Z_lt_dec i n := {
    | left _ => body i ;; for_lt (i + Z.pos step) n step body
    | right _ => ret tt }.
Proof. lia. Qed.

Equations? for_le (i n : Z) (step : positive) (body : Z -> M unit) : M unit
  by wf (Z.to_nat (n + 1 - i)) lt :=
  for_le i n step body with Z_le_dec i n := {
    | left _ => body i ;; for_le (i + Z.pos step) n step body
    | right _ => ret tt }.
Proof. lia. Qed.

Equations? for_gt (i n : Z) (step : positive) (body : Z -> M unit) : M unit
  by wf (Z.to_nat (i - n)) lt :=
  for_gt i n step body with Z_gt_dec i n := {
    | left _ => body i ;; for_gt (i - Z.pos step) n step body
    | right _ => ret tt }.
Proof. lia. Qed.

Equations? for_ge (i n : Z) (step : positive) (body : Z -> M unit) : M unit
  by wf (Z.to_nat (i + 1 - n)) lt :=
  for_ge i n step body with Z_ge_dec i n := {
    | left _ => body i ;; for_ge (i - Z.pos step) n step body
    | right _ => ret tt }.
Proof. lia. Qed.


(** [forM_ xs body] runs [body] on the elements of [xs] in order: the shape
    every terminating loop above unrolls to. *)
Fixpoint forM_ (xs : list Z) (body : Z -> M unit) : M unit :=
  match xs with
  | [] => ret tt
  | x :: xs' => body x ;; forM_ xs' body
  end.

(** [ramp i d k]: the [k] values [i], [i + d], [i + 2 d], ... *)
Fixpoint ramp (i d : Z) (k : nat) : list Z :=
  match k with
  | O => []
  | S k' => i :: ramp (i + d) d k'
  end.

(** ** Register updates *)

Definition set_timer (k : Z * Z) (cfg : ledc_timer_config_t) (m : machine) : machine :=
  {| timers := <[k := cfg]> (timers m); bound := bound m;
     latched := latched m; committed := committed m;
     rand_state := rand_state m |}.

Definition set_bound (k : Z * Z) (cfg : ledc_channel_config_t) (m : machine) : machine :=
  {| timers := timers m; bound := <[k := cfg]> (bound m);
     latched := latched m; committed := committed m;
     rand_state := rand_state m |}.

Definition set_latched (k : Z * Z) (duty : Z) (m : machine) : machine :=
  {| timers := timers m; bound := bound m;
     latched := <[k := duty]> (latched m); committed := committed m;
     rand_state := rand_state m |}.

Definition set_committed (k : Z * Z) (duty : Z) (m : machine) : machine :=
  {| timers := timers m; bound := bound m;
     latched := latched m; committed := <[k := duty]> (committed m);
     rand_state := rand_state m |}.

Definition set_rand_state (st : Z) (m : machine) : machine :=
  {| timers := timers m; bound := bound m;
     latched := latched m; committed := committed m;
     rand_state := st |}.

(** Latch and commit in one step: what [led_set_brightness] amounts to. *)
Definition write (k : Z * Z) (duty : Z) (m : machine) : machine :=
  set_committed k duty (set_latched k duty m).

(** ** Reading a run *)

Definition events {A} (o : outcome A) : list event :=
  match o with
  | Done _ _ evs => evs
  | Abort _ evs => evs
  | Undefined evs => evs
  end.

(** The events of a program started on the machine at power-on. *)
Definition trace {A} (c : M A) : list event := events (c power_on).

Definition is_done {A} (o : outcome A) : bool :=
  match o with Done _ _ _ => true | _ => false end.

(** The duties handed to [ledc_set_duty], in order. *)
Fixpoint duties_written (evs : list event) : list Z :=
  match evs with
  | [] => []
  | EvSetDuty _ _ d :: evs' => d :: duties_written evs'
  | _ :: evs' => duties_written evs'
  end.

(** The arguments of the calls of [led_breathe], in order. *)
Fixpoint breathe_calls (evs : list event) : list Z :=
  match evs with
  | [] => []
  | EvEnter_led_breathe i :: evs' => i :: breathe_calls evs'
  | _ :: evs' => breathe_calls evs'
  end.

(** The messages logged, in order. *)
Fixpoint logged (evs : list event) : list string :=
  match evs with
  | [] => []
  | EvLog _ fmt _ :: evs' => fmt :: logged evs'
  | _ :: evs' => logged evs'
  end.

(** The values [rand] returned, in order. *)
Fixpoint rand_values (evs : list event) : list Z :=
  match evs with
  | [] => []
  | EvRand r :: evs' => r :: rand_values evs'
  | _ :: evs' => rand_values evs'
  end.

Fixpoint nondecreasing (l : list Z) : bool :=
  match l with
  | x :: (y :: _) as l' => (x <=? y) && nondecreasing l'
  | _ => true
  end.

Fixpoint nonincreasing (l : list Z) : bool :=
  match l with
  | x :: (y :: _) as l' => (y <=? x) && nonincreasing l'
  | _ => true
  end.

(** The largest element of a list. *)
Definition maximum (l : list Z) : option Z :=
  match l with
  | [] => None
  | x :: l' => Some (foldl Z.max x l')
  end.

Definition is_led_channel (ch : ledc_channel_t) : bool :=
  existsb (fun l => channel l =? ch) leds.

(** An event is in range when its duty is one of the 10-bit resolution and
    its LED index is one of [leds]; events that carry neither are. *)
Definition in_range (e : event) : bool :=
  match e with
  | EvSetDuty mode ch d =>
      (mode =? LED_MODE) && is_led_channel ch && (0 <=? d) && (d <=? max_duty)
  | EvUpdateDuty mode ch => (mode =? LED_MODE) && is_led_channel ch
  | EvEnter_led_set_brightness i d =>
      (0 <=? i) && (i <? LED_COUNT) && (0 <=? d) && (d <=? max_duty)
  | EvEnter_led_breathe i => (0 <=? i) && (i <? LED_COUNT)
  | _ => true
  end.

(** The sample generator of the C standard (ISO C, 7.22.2), as one state
    step: an instance of the library's [rand]. *)
Definition iso_rand_step (st : Z) : Z * Z :=
  let st' := (st * 1103515245 + 12345) mod 2 ^ 32 in
  ((st' / 65536) mod 32768, st').

(** A driver that accepts every configuration, and one that accepts none. *)
Definition accept_timer (_ : ledc_timer_config_t) : esp_err_t := ESP_OK.
Definition accept_channel (_ : ledc_channel_config_t) : esp_err_t := ESP_OK.
Definition reject_channel (_ : ledc_channel_config_t) : esp_err_t := ESP_FAIL.

(** The first [n] values of a generator started in state [st]. *)
Fixpoint draws (step : Z -> Z * Z) (n : nat) (st : Z) : list Z :=
  match n with
  | O => []
  | S n' => let '(r, st') := step st in r :: draws step n' st'
  end.

(** ** The firmware *)

Section Firmware.

Set Default Proof Using "Type".

(** The surroundings of the program: the C library's generator (one state
    step yields a value and the next state), the verdict of the LEDC
    hardware on a timer and on a channel configuration, and the word the
    entropy source yields at startup. *)
Variable rand_step : Z -> Z * Z.
Variable timer_verdict : ledc_timer_config_t -> esp_err_t.
Variable channel_verdict : ledc_channel_config_t -> esp_err_t.
Variable entropy : Z.

(** *** The calls the program makes into ESP-IDF, FreeRTOS and libc *)

(** Modelled from the spec: the PWM binding is ESP-IDF's LEDC driver, whose
    source is outside the repository.  [ledc_timer_config] programs the
    timer when the hardware accepts the configuration and reports the
    hardware's verdict. *)
Definition ledc_timer_config (cfg : ledc_timer_config_t) : M esp_err_t :=
  let r := timer_verdict cfg in
  emit (EvTimerConfig cfg r) ;;
  if r =? ESP_OK then
    m <- get ;;
    put (set_timer (tc_speed_mode cfg, tc_timer_num cfg) cfg m) ;;
    ret r
  else ret r.

(** Modelled from the spec: [ledc_channel_config] binds the channel to its
    pin and timer and starts it at the configured duty. *)
Definition ledc_channel_config (cfg : ledc_channel_config_t) : M esp_err_t :=
  let r := channel_verdict cfg in
  emit (EvChannelConfig cfg r) ;;
  if r =? ESP_OK then
    m <- get ;;
    let k := (cc_speed_mode cfg, cc_channel cfg) in
    put (write k (cc_duty cfg) (set_bound k cfg m)) ;;
    ret r
  else ret r.

(** Modelled from the spec: set-duty-value(channel, value) latches a duty,
    commit-duty(channel) makes the latched duty the output. *)
Definition ledc_set_duty (mode : ledc_mode_t) (ch : ledc_channel_t) (duty : Z)
  : M esp_err_t :=
  emit (EvSetDuty mode ch duty) ;;
  m <- get ;;
  put (set_latched (mode, ch) duty m) ;;
  ret ESP_OK.

Definition ledc_update_duty (mode : ledc_mode_t) (ch : ledc_channel_t)
  : M esp_err_t :=
  emit (EvUpdateDuty mode ch) ;;
  m <- get ;;
  match latched m !! (mode, ch) with
  | Some d => put (set_committed (mode, ch) d m) ;; ret ESP_OK
  | None => ret ESP_FAIL
  end.

(** Modelled from the spec: [ESP_ERROR_CHECK] (esp_err.h) aborts the
    process when its argument is not [ESP_OK]. *)
Definition ESP_ERROR_CHECK (x : M esp_err_t) : M unit :=
  r <- x ;;
  if r =? ESP_OK then ret tt else abort r.

(** Logging, delays and task creation touch no register: each is recorded
    as an event. *)
Definition ESP_LOGI (tag fmt : string) (args : list Z) : M unit :=
  emit (EvLog tag fmt args).

Definition vTaskDelay (t : TickType_t) : M unit := emit (EvDelay t).

Definition xTaskCreate (name : string) (stack_depth priority : Z) : M unit :=
  emit (EvTaskCreate name stack_depth priority).

(** Modelled from the spec: the process-wide pseudo-random generator of the
    C library, seeded by [srand], and the hardware entropy source. *)
Definition rand : M Z :=
  m <- get ;;
  let '(r, st') := rand_step (rand_state m) in
  put (set_rand_state st' m) ;;
  emit (EvRand r) ;;
  ret r.

Definition srand (seed : Z) : M unit :=
  m <- get ;;
  put (set_rand_state seed m).

Definition esp_random : M Z := ret entropy.

(** *** HelloWorld.c

    The pictograph that opens each log message is left out of the
    strings. *)

Definition TAG : string := "LED_BREATH".

Definition led_init : M unit :=
  let ledc_timer :=
    {| tc_speed_mode := LED_MODE;
       tc_timer_num := LED_TIMER;
       tc_duty_resolution := LED_DUTY_RES;
       tc_freq_hz := LED_FREQ_HZ;
       tc_clk_cfg := LEDC_AUTO_CLK |} in
  ESP_ERROR_CHECK (ledc_timer_config ledc_timer) ;;
  for_lt 0 LED_COUNT 1 (fun i =>
    l <- index leds i ;;
    let ledc_channel :=
      {| cc_speed_mode := LED_MODE;
         cc_channel := channel l;
         cc_timer_sel := LED_TIMER;
         cc_gpio_num := gpio l;
         cc_duty := 0;
         cc_hpoint := 0 |} in
    ESP_ERROR_CHECK (ledc_channel_config ledc_channel)) ;;
  ESP_LOGI TAG "LED PWM Initialized (%d LEDs)" [LED_COUNT].

Definition led_set_brightness (led_index duty : Z) : M unit :=
  emit (EvEnter_led_set_brightness led_index duty) ;;
  l <- index leds led_index ;;
  _ <- ledc_set_duty LED_MODE (channel l) duty ;;
  l' <- index leds led_index ;;
  _ <- ledc_update_duty LED_MODE (channel l') ;;
  ret tt.

(** The first loop of [led_breathe]. *)
Definition led_breathe_rise (led_index : Z) : M unit :=
  for_le 0 1023 10 (fun duty =>
    led_set_brightness led_index duty ;;
    vTaskDelay (pdMS_TO_TICKS STEP_DELAY)).

(** The second loop of [led_breathe]. *)
Definition led_breathe_fall (led_index : Z) : M unit :=
  for_ge 1023 0 10 (fun duty =>
    led_set_brightness led_index duty ;;
    vTaskDelay (pdMS_TO_TICKS STEP_DELAY)).

Definition led_breathe (led_index : Z) : M unit :=
  emit (EvEnter_led_breathe led_index) ;;
  led_breathe_rise led_index ;;
  led_breathe_fall led_index.

Definition pattern_knight_rider : M unit :=
  ESP_LOGI TAG "Pattern: Knight Rider (Breathing)" [] ;;
  for_lt 0 LED_COUNT 1 (fun i => led_breathe i) ;;
  for_gt (LED_COUNT - 2) 0 1 (fun i => led_breathe i).

(** The body of the outer loop of [pattern_binary_counter]. *)
Definition binary_counter_pass (count : Z) : M unit :=
  for_lt 0 LED_COUNT 1 (fun i =>
    let bit := Z.land (Z.shiftr count i) 1 in
    if negb (bit =? 0) then led_breathe i
    else led_set_brightness i 0) ;;
  vTaskDelay (pdMS_TO_TICKS BLINK_DELAY).

Definition pattern_binary_counter : M unit :=
  ESP_LOGI TAG "Pattern: Binary Counter (Breathing)" [] ;;
  let max_count := Z.shiftl 1 LED_COUNT in
  for_lt 0 max_count 1 (fun count => binary_counter_pass count).

(** The body of the loop of [pattern_random]. *)
Definition random_step (i : Z) : M unit :=
  r <- rand ;;
  let led_index := Z.rem r LED_COUNT in
  l <- index leds led_index ;;
  ESP_LOGI TAG "LED %d breathing..." [gpio l] ;;
  led_breathe led_index ;;
  vTaskDelay (pdMS_TO_TICKS BLINK_DELAY).

Definition pattern_random : M unit :=
  ESP_LOGI TAG "Pattern: Random Breathing" [] ;;
  for_lt 0 6 1 (fun i => random_step i).

(** One round of the [while (1)] of [led_pattern_task]. *)
Definition led_pattern_round : M unit :=
  pattern_knight_rider ;;
  pattern_binary_counter ;;
  pattern_random.

(** The task never returns; its first [n] rounds are a program. *)
Fixpoint led_pattern_task (n : nat) : M unit :=
  match n with
  | O => ret tt
  | S n' => led_pattern_round ;; led_pattern_task n'
  end.

Definition app_main : M unit :=
  ESP_LOGI TAG "ESP32 Breathing LED Pattern Demo Started" [] ;;
  led_init ;;
  seed <- esp_random ;;
  srand seed ;;
  xTaskCreate "led_pattern_task" 4096 5.

(** *** The binary counter in the words of its description

    For [count] from 0 to 2^N - 1, for each LED index [i] in ascending
    order: a breath when bit [i] of [count] is set, else brightness 0. *)
Definition counter_led (count i : Z) : M unit :=
  if Z.testbit count i then led_breathe i else led_set_brightness i 0.

Definition counter_pass (count : Z) : M unit :=
  forM_ (ramp 0 1 (Z.to_nat LED_COUNT)) (counter_led count) ;;
  vTaskDelay (pdMS_TO_TICKS BLINK_DELAY).

Definition binary_counter_described : M unit :=
  ESP_LOGI TAG "Pattern: Binary Counter (Breathing)" [] ;;
  forM_ (ramp 0 1 (Z.to_nat (2 ^ LED_COUNT))) counter_pass.

(** A program has effect [f] with events [evs] when, from every machine
    [m], it finishes in [f m] having emitted [evs]. *)
Definition effect (c : M unit) (f : machine -> machine) (evs : list event) : Prop :=
  forall m, c m = Done tt (f m) evs.

(** What the C library promises of [rand]: a value from 0 to RAND_MAX. *)
Definition rand_nonneg : Prop := forall st, 0 <= (rand_step st).1.

(** The configurations [led_init] hands to the driver. *)
Definition timer_config_of_leds : ledc_timer_config_t :=
  {| tc_speed_mode := LED_MODE;
     tc_timer_num := LED_TIMER;
     tc_duty_resolution := LED_DUTY_RES;
     tc_freq_hz := LED_FREQ_HZ;
     tc_clk_cfg := LEDC_AUTO_CLK |}.

Definition channel_config_of (l : led_t) : ledc_channel_config_t :=
  {| cc_speed_mode := LED_MODE;
     cc_channel := channel l;
     cc_timer_sel := LED_TIMER;
     cc_gpio_num := gpio l;
     cc_duty := 0;
     cc_hpoint := 0 |}.

(** A steady program finishes from every machine with the same events,
    those of its run from power-on. *)
Definition steady (c : M unit) : Prop :=
  exists f, effect c f (trace c).

(** The register of the LED at [led_index]. *)
Definition led_key (led_index : Z) : Z * Z :=
  (LED_MODE, from_option channel 0 (leds !! Z.to_nat led_index)).


(** The number of set bits of [n] among the lowest [bits]. *)
Fixpoint popcount (bits : nat) (n : Z) : nat :=
  match bits with
  | O => O
  | S b => ((if Z.testbit n (Z.of_nat b) then 1 else 0) + popcount b n)%nat
  end.

(** ** Reading machines and times off a run *)

(** The milliseconds a run sleeps in all. *)
Fixpoint delay_ms (evs : list event) : Z :=
  match evs with
  | [] => 0
  | EvDelay (pdMS_TO_TICKS ms) :: evs' => ms + delay_ms evs'
  | _ :: evs' => delay_ms evs'
  end.

(** The state of a generator after [n] draws. *)
Fixpoint rand_after (step : Z -> Z * Z) (n : nat) (st : Z) : Z :=
  match n with
  | O => st
  | S n' => rand_after step n' (step st).2
  end.

(** A list of (register, duty) writes, made in order. *)
Definition write_all (ws : list (Z * Z * Z)) (m : machine) : machine :=
  foldl (fun m w => write w.1 w.2 m) m ws.

(** The duty the writes [ws] leave on register [k], if one of them is on
    [k]. *)
Definition final_duty (ws : list (Z * Z * Z)) (k : Z * Z) : option Z :=
  foldl (fun o w => if decide (w.1 = k) then Some w.2 else o) None ws.

(** A program leaves [ws] when it is steady and ends, from every machine,
    in the machine the writes [ws] lead to. *)
Definition leaves (c : M unit) (ws : list (Z * Z * Z)) : Prop :=
  effect c (write_all ws) (trace c).

Definition is_led_key (k : Z * Z) : Prop :=
  exists i, 0 <= i < LED_COUNT /\ k = led_key i.

(** A write of a duty of the 10-bit resolution on the register of an LED. *)
Definition led_write (w : Z * Z * Z) : Prop :=
  is_led_key w.1 /\ 0 <= w.2 <= max_duty.

(** [m'] is [m] after writes on LED registers and draws from [rand], and
    nothing else. *)
Definition driven (m m' : machine) : Prop :=
  exists ws st, Forall led_write ws /\ m' = write_all ws (set_rand_state st m).

(** No register holds a latched duty that was not committed. *)
Definition coherent (m : machine) : Prop := latched m = committed m.

(** The duty a pass of the binary counter leaves on LED [i]. *)
Definition pass_duty (count i : Z) : Z :=
  if Z.testbit count i then 3 else 0.

(** The machine [led_init] returns, when the hardware accepts. *)
Definition initialised (m : machine) : machine :=
  foldl (fun m l =>
           write (LED_MODE, channel l) 0
             (set_bound (LED_MODE, channel l) (channel_config_of l) m))
        (set_timer (LED_MODE, LED_TIMER) timer_config_of_leds m) leds.

(** The hardware accepts the timer and every channel of [leds]. *)
Definition accepted : Prop :=
  timer_verdict timer_config_of_leds = ESP_OK /\
  forall l, l ∈ leds -> channel_verdict (channel_config_of l) = ESP_OK.

(** The events of [led_init] when the hardware accepts. *)
Definition led_init_events : list event :=
  EvTimerConfig timer_config_of_leds ESP_OK ::
  map (fun l => EvChannelConfig (channel_config_of l) ESP_OK) leds ++
  [EvLog TAG "LED PWM Initialized (%d LEDs)" [LED_COUNT]].

Definition is_task_create (e : event) : bool :=
  match e with EvTaskCreate _ _ _ => true | _ => false end.

(** The writes a run of [pattern_random] leaves, from its draws. *)
Definition random_writes (rs : list Z) : list (Z * Z * Z) :=
  map (fun r => (led_key (Z.rem r LED_COUNT), 3)) rs.

(** The verdict a configuration event carries. *)
Definition verdict_of (e : event) : option esp_err_t :=
  match e with
  | EvTimerConfig _ r | EvChannelConfig _ r => Some r
  | _ => None
  end.

(** ** Laws of the monad and of the loops *)

Lemma bind_ext {A B} (c c' : M A) (k k' : A -> M B) m :
  c m = c' m ->
  (forall a m1, k a m1 = k' a m1) ->
  bind c k m = bind c' k' m.
Proof.
  intros Hc Hk. unfold bind. rewrite Hc.
  destruct (c' m) as [a m1 e1|code e1|e1]; [|reflexivity..].
  by rewrite Hk.
Qed.

Lemma forM__ext xs (body body' : Z -> M unit) :
  (forall x, x ∈ xs -> forall m, body x m = body' x m) ->
  forall m, forM_ xs body m = forM_ xs body' m.
Proof.
  induction xs as [|x xs IH]; intros Hb m; [reflexivity|].
  cbn [forM_]. apply bind_ext.
  - apply Hb. left.
  - intros _ m1. apply IH. intros y Hy. apply Hb. by right.
Qed.

Lemma for_lt_step i n step body :
  for_lt i n step body =
  if Z_lt_dec i n then (body i ;; for_lt (i + Z.pos step) n step body) else ret tt.
Proof. simp for_lt. destruct (Z_lt_dec i n); simp for_lt; reflexivity. Qed.

Lemma for_le_step i n step body :
  for_le i n step body =
  if Z_le_dec i n then (body i ;; for_le (i + Z.pos step) n step body) else ret tt.
Proof. simp for_le. destruct (Z_le_dec i n); simp for_le; reflexivity. Qed.

Lemma for_gt_step i n step body :
  for_gt i n step body =
  if Z_gt_dec i n then (body i ;; for_gt (i - Z.pos step) n step body) else ret tt.
Proof. simp for_gt. destruct (Z_gt_dec i n); simp for_gt; reflexivity. Qed.

Lemma for_ge_step i n step body :
  for_ge i n step body =
  if Z_ge_dec i n then (body i ;; for_ge (i - Z.pos step) n step body) else ret tt.
Proof. simp for_ge. destruct (Z_ge_dec i n); simp for_ge; reflexivity. Qed.

(** A loop that makes [k] rounds is [forM_] over the [k] values of its
    counter. *)
Lemma for_lt_ramp k : forall i n step body,
  i + (Z.of_nat k - 1) * Z.pos step < n <= i + Z.of_nat k * Z.pos step ->
  forall m, for_lt i n step body m = forM_ (ramp i (Z.pos step) k) body m.
Proof.
  induction k as [|k IH]; intros i n step body Hk m; rewrite for_lt_step.
  - destruct (Z_lt_dec i n); [lia|reflexivity].
  - destruct (Z_lt_dec i n); [|lia].
    cbn [ramp forM_]. apply bind_ext; [reflexivity|].
    intros _ m1. apply IH. lia.
Qed.

Lemma for_le_ramp k : forall i n step body,
  i + (Z.of_nat k - 1) * Z.pos step <= n < i + Z.of_nat k * Z.pos step ->
  forall m, for_le i n step body m = forM_ (ramp i (Z.pos step) k) body m.
Proof.
  induction k as [|k IH]; intros i n step body Hk m; rewrite for_le_step.
  - destruct (Z_le_dec i n); [lia|reflexivity].
  - destruct (Z_le_dec i n); [|lia].
    cbn [ramp forM_]. apply bind_ext; [reflexivity|].
    intros _ m1. apply IH. lia.
Qed.

Lemma for_gt_ramp k : forall i n step body,
  i - Z.of_nat k * Z.pos step <= n < i - (Z.of_nat k - 1) * Z.pos step ->
  forall m, for_gt i n step body m = forM_ (ramp i (- Z.pos step) k) body m.
Proof.
  induction k as [|k IH]; intros i n step body Hk m; rewrite for_gt_step.
  - destruct (Z_gt_dec i n); [lia|reflexivity].
  - destruct (Z_gt_dec i n); [|lia].
    cbn [ramp forM_]. apply bind_ext; [reflexivity|].
    intros _ m1. change (i + - Z.pos step) with (i - Z.pos step).
    apply IH. lia.
Qed.

Lemma for_ge_ramp k : forall i n step body,
  i - Z.of_nat k * Z.pos step < n <= i - (Z.of_nat k - 1) * Z.pos step ->
  forall m, for_ge i n step body m = forM_ (ramp i (- Z.pos step) k) body m.
Proof.
  induction k as [|k IH]; intros i n step body Hk m; rewrite for_ge_step.
  - destruct (Z_ge_dec i n); [lia|reflexivity].
  - destruct (Z_ge_dec i n); [|lia].
    cbn [ramp forM_]. apply bind_ext; [reflexivity|].
    intros _ m1. change (i + - Z.pos step) with (i - Z.pos step).
    apply IH. lia.
Qed.

(** ** Programs whose run does not depend on the machine *)

Lemma effect_ret : effect (ret tt) (fun m => m) [].
Proof. by intros m. Qed.

Lemma effect_emit e : effect (emit e) (fun m => m) [e].
Proof. by intros m. Qed.

Lemma effect_seq (c k : M unit) f g e1 e2 :
  effect c f e1 -> effect k g e2 ->
  effect (c ;; k) (fun m => g (f m)) (e1 ++ e2).
Proof. intros Hc Hk m. unfold bind. by rewrite Hc, Hk. Qed.

Lemma effect_ext (c c' : M unit) f f' e e' :
  effect c f e ->
  (forall m, c' m = c m) -> (forall m, f' m = f m) -> e' = e ->
  effect c' f' e'.
Proof. intros Hc Hc' Hf -> m. by rewrite Hc', Hf. Qed.

Lemma effect_trace (c : M unit) f e : effect c f e -> e = trace c.
Proof. intros Hc. unfold trace. by rewrite Hc. Qed.

Lemma effect_forM_ xs (body : Z -> M unit) f ev :
  (forall x, x ∈ xs -> effect (body x) (f x) (ev x)) ->
  effect (forM_ xs body) (fun m => foldl (fun m x => f x m) m xs)
         (concat (map ev xs)).
Proof.
  induction xs as [|x xs IH]; intros Hb; [apply effect_ret|].
  cbn [forM_ foldl map concat].
  apply (effect_seq _ _ (f x) (fun m => foldl (fun m x => f x m) m xs)).
  - apply Hb. left.
  - apply IH. intros y Hy. apply Hb. by right.
Qed.

(** *** Writes to one register *)

Lemma write_write k d1 d2 m : write k d2 (write k d1 m) = write k d2 m.
Proof.
  unfold write, set_committed, set_latched. cbn.
  by rewrite !insert_insert_eq.
Qed.

Lemma foldl_write k xs : forall d m,
  foldl (fun m x => write k x m) (write k d m) xs =
  write k (default d (last xs)) m.
Proof.
  induction xs as [|x xs IH]; intros d m; [reflexivity|].
  cbn [foldl]. rewrite write_write, IH, last_cons.
  by destruct (last xs).
Qed.

Lemma committed_write k d m : committed (write k d m) !! k = Some d.
Proof. cbn. apply lookup_insert_eq. Qed.

Lemma committed_write_ne k k' d m :
  k ≠ k' -> committed (write k d m) !! k' = committed m !! k'.
Proof. intros Hk. cbn. by apply lookup_insert_ne. Qed.

Lemma latched_write_ne k k' d m :
  k ≠ k' -> latched (write k d m) !! k' = latched m !! k'.
Proof. intros Hk. cbn. by apply lookup_insert_ne. Qed.

Lemma rand_state_write k d m : rand_state (write k d m) = rand_state m.
Proof. reflexivity. Qed.

(** *** LED indices *)

Lemma led_index_cases i : 0 <= i < LED_COUNT -> i = 0 \/ i = 1 \/ i = 2.
Proof. change LED_COUNT with 3. lia. Qed.

Lemma led_key_inj i j :
  0 <= i < LED_COUNT -> 0 <= j < LED_COUNT -> led_key i = led_key j -> i = j.
Proof.
  intros Hi Hj.
  destruct (led_index_cases i Hi) as [->|[->| ->]],
           (led_index_cases j Hj) as [->|[->| ->]]; by vm_compute.
Qed.

(** *** The brightness primitive *)

Lemma index_done {A} (a : list A) i x m :
  0 <= i -> a !! Z.to_nat i = Some x -> index a i m = Done x m [].
Proof.
  intros Hi Hx. unfold index.
  destruct (Z.ltb_spec i 0); [lia|]. by rewrite Hx.
Qed.

Lemma led_lookup i :
  0 <= i < LED_COUNT ->
  exists l, leds !! Z.to_nat i = Some l /\ led_key i = (LED_MODE, channel l).
Proof.
  intros Hi.
  destruct (led_index_cases i Hi) as [->|[->| ->]]; eexists; by split.
Qed.

Lemma led_set_brightness_effect i d :
  0 <= i < LED_COUNT ->
  effect (led_set_brightness i d) (write (led_key i) d)
    [EvEnter_led_set_brightness i d;
     EvSetDuty LED_MODE (led_key i).2 d;
     EvUpdateDuty LED_MODE (led_key i).2].
Proof.
  intros Hi m.
  destruct (led_lookup i Hi) as (l & Hl & ->).
  unfold led_set_brightness, bind, emit.
  rewrite (index_done leds i l) by (done || lia).
  unfold ledc_set_duty, bind, emit, get, put, ret.
  rewrite (index_done leds i l) by (done || lia).
  unfold ledc_update_duty, bind, emit, get, put, ret.
  cbn. by rewrite lookup_insert_eq.
Qed.

Lemma breathe_step_effect i d :
  0 <= i < LED_COUNT ->
  effect (led_set_brightness i d ;; vTaskDelay (pdMS_TO_TICKS STEP_DELAY))
    (write (led_key i) d)
    ([EvEnter_led_set_brightness i d;
      EvSetDuty LED_MODE (led_key i).2 d;
      EvUpdateDuty LED_MODE (led_key i).2] ++
     [EvDelay (pdMS_TO_TICKS STEP_DELAY)]).
Proof.
  intros Hi.
  apply (effect_seq _ _ (write (led_key i) d) (fun m => m)).
  - by apply led_set_brightness_effect.
  - apply effect_emit.
Qed.

(** A ramp of brightness steps leaves the last duty of the ramp. *)
Lemma ramp_effect i x xs :
  0 <= i < LED_COUNT ->
  exists evs,
    effect (forM_ (x :: xs) (fun duty =>
              led_set_brightness i duty ;;
              vTaskDelay (pdMS_TO_TICKS STEP_DELAY)))
           (write (led_key i) (default x (last xs))) evs.
Proof.
  intros Hi. eexists.
  eapply effect_ext.
  - apply effect_forM_. intros d _. by apply breathe_step_effect.
  - reflexivity.
  - intros m. cbn [foldl]. by rewrite foldl_write.
  - reflexivity.
Qed.

Lemma led_breathe_rise_effect i :
  0 <= i < LED_COUNT ->
  effect (led_breathe_rise i) (write (led_key i) 1020)
         (trace (led_breathe_rise i)).
Proof.
  intros Hi.
  destruct (ramp_effect i 0 (ramp 10 10 102) Hi) as [evs Hevs].
  assert (Hr : effect (led_breathe_rise i) (write (led_key i) 1020) evs).
  { eapply effect_ext; [exact Hevs| |reflexivity..].
    intros m. unfold led_breathe_rise.
    by rewrite (for_le_ramp 103). }
  by rewrite <- (effect_trace _ _ _ Hr).
Qed.

Lemma led_breathe_fall_effect i :
  0 <= i < LED_COUNT ->
  effect (led_breathe_fall i) (write (led_key i) 3)
         (trace (led_breathe_fall i)).
Proof.
  intros Hi.
  destruct (ramp_effect i 1023 (ramp 1013 (-10) 102) Hi) as [evs Hevs].
  assert (Hr : effect (led_breathe_fall i) (write (led_key i) 3) evs).
  { eapply effect_ext; [exact Hevs| |reflexivity..].
    intros m. unfold led_breathe_fall.
    by rewrite (for_ge_ramp 103). }
  by rewrite <- (effect_trace _ _ _ Hr).
Qed.

Lemma led_breathe_effect i :
  0 <= i < LED_COUNT ->
  effect (led_breathe i) (write (led_key i) 3) (trace (led_breathe i)).
Proof.
  intros Hi.
  pose proof (effect_seq _ _ _ _ _ _ (effect_emit (EvEnter_led_breathe i))
    (effect_seq _ _ _ _ _ _ (led_breathe_rise_effect i Hi)
                            (led_breathe_fall_effect i Hi))) as Hr.
  change (emit _ ;; _) with (led_breathe i) in Hr.
  rewrite <- (effect_trace _ _ _ Hr).
  intros m. rewrite (Hr m). by rewrite write_write.
Qed.

(** *** Steady programs *)

Lemma steady_of_effect (c : M unit) f e : effect c f e -> steady c.
Proof. intros Hc. exists f. by rewrite <- (effect_trace _ _ _ Hc). Qed.

Lemma steady_done (c : M unit) :
  steady c -> forall m, exists m', c m = Done tt m' (trace c).
Proof. intros [f Hf] m. exists (f m). apply Hf. Qed.

Lemma steady_seq (c k : M unit) : steady c -> steady k -> steady (c ;; k).
Proof.
  intros [f Hf] [g Hg]. eapply steady_of_effect. by apply effect_seq.
Qed.

Lemma trace_seq (c k : M unit) :
  steady c -> steady k -> trace (c ;; k) = trace c ++ trace k.
Proof.
  intros [f Hf] [g Hg]. symmetry.
  eapply effect_trace. by apply effect_seq.
Qed.

Lemma steady_ext (c c' : M unit) :
  (forall m, c' m = c m) -> steady c -> steady c'.
Proof.
  intros Hc [f Hf]. eapply steady_of_effect.
  intros m. rewrite Hc. apply Hf.
Qed.

Lemma steady_ret : steady (ret tt).
Proof. eapply steady_of_effect, effect_ret. Qed.

Lemma steady_emit e : steady (emit e).
Proof. eapply steady_of_effect, effect_emit. Qed.

Lemma steady_forM_ xs (body : Z -> M unit) :
  (forall x, x ∈ xs -> steady (body x)) -> steady (forM_ xs body).
Proof.
  induction xs as [|x xs IH]; intros Hb; [apply steady_ret|].
  cbn [forM_]. apply steady_seq.
  - apply Hb. left.
  - apply IH. intros y Hy. apply Hb. by right.
Qed.

Lemma ramp_elem x k : forall i d,
  x ∈ ramp i d k -> exists j, (j < k)%nat /\ x = i + Z.of_nat j * d.
Proof.
  induction k as [|k IH]; intros i d Hx; cbn [ramp] in Hx.
  - by apply elem_of_nil in Hx.
  - apply elem_of_cons in Hx as [->|Hx].
    + exists 0%nat. lia.
    + destruct (IH _ _ Hx) as (j & Hj & ->). exists (S j). lia.
Qed.

Lemma steady_led_set_brightness i d :
  0 <= i < LED_COUNT -> steady (led_set_brightness i d).
Proof. intros Hi. eapply steady_of_effect. by apply led_set_brightness_effect. Qed.

Lemma steady_led_breathe i : 0 <= i < LED_COUNT -> steady (led_breathe i).
Proof. intros Hi. eapply steady_of_effect. by apply led_breathe_effect. Qed.

(** The loops over the LEDs, unrolled. *)
Lemma for_leds body m :
  for_lt 0 LED_COUNT 1 body m = forM_ (ramp 0 1 3) body m.
Proof. by apply for_lt_ramp. Qed.

Lemma ramp_leds x : x ∈ ramp 0 1 3 -> 0 <= x < LED_COUNT.
Proof.
  intros Hx. apply ramp_elem in Hx as (j & Hj & ->).
  change LED_COUNT with 3. lia.
Qed.

Lemma steady_pattern_knight_rider : steady pattern_knight_rider.
Proof.
  unfold pattern_knight_rider.
  apply steady_seq; [apply steady_emit|].
  apply steady_seq.
  - eapply steady_ext; [apply for_leds|].
    apply steady_forM_. intros x Hx. by apply steady_led_breathe, ramp_leds.
  - eapply steady_ext; [by apply (for_gt_ramp 1)|].
    apply steady_forM_. intros x Hx.
    apply steady_led_breathe.
    apply ramp_elem in Hx as (j & Hj & ->).
    change LED_COUNT with 3. lia.
Qed.

(** The C test of bit [i] of [count] is [Z.testbit]. *)
Lemma bit_test count i :
  0 <= i -> negb (Z.land (Z.shiftr count i) 1 =? 0) = Z.testbit count i.
Proof.
  intros Hi.
  change 1 with (Z.ones 1) at 1. rewrite Z.land_ones by lia.
  change (2 ^ 1) with 2. rewrite Zmod_odd.
  rewrite <- Z.bit0_odd, Z.shiftr_spec by lia. rewrite Z.add_0_l.
  by destruct (Z.testbit count i).
Qed.

Lemma binary_counter_pass_described count m :
  binary_counter_pass count m = counter_pass count m.
Proof.
  unfold binary_counter_pass, counter_pass.
  apply bind_ext; [|reflexivity].
  rewrite for_leds. change (Z.to_nat LED_COUNT) with 3%nat.
  apply forM__ext. intros i Hi m1. unfold counter_led. cbn zeta.
  rewrite bit_test; [reflexivity|].
  apply ramp_leds in Hi. lia.
Qed.

Lemma steady_counter_pass count : steady (counter_pass count).
Proof.
  unfold counter_pass. apply steady_seq; [|apply steady_emit].
  apply steady_forM_. intros i Hi. apply ramp_leds in Hi.
  unfold counter_led. destruct (Z.testbit count i).
  - by apply steady_led_breathe.
  - by apply steady_led_set_brightness.
Qed.

Lemma pattern_binary_counter_unrolled m :
  pattern_binary_counter m = binary_counter_described m.
Proof.
  unfold pattern_binary_counter, binary_counter_described.
  apply bind_ext; [reflexivity|]. intros _ m1. cbn zeta.
  rewrite (for_lt_ramp 8) by by vm_compute.
  change (Z.to_nat (2 ^ LED_COUNT)) with 8%nat.
  apply forM__ext. intros count _ m2. apply binary_counter_pass_described.
Qed.

Lemma steady_pattern_binary_counter : steady pattern_binary_counter.
Proof.
  eapply steady_ext; [apply pattern_binary_counter_unrolled|].
  unfold binary_counter_described.
  apply steady_seq; [apply steady_emit|].
  apply steady_forM_. intros count _. apply steady_counter_pass.
Qed.

(** *** Reading events off concatenated runs *)

Lemma breathe_calls_app e1 e2 :
  breathe_calls (e1 ++ e2) = breathe_calls e1 ++ breathe_calls e2.
Proof.
  induction e1 as [|e e1 IH]; [reflexivity|].
  destruct e; cbn; by rewrite ?IH.
Qed.

Lemma rand_values_app e1 e2 :
  rand_values (e1 ++ e2) = rand_values e1 ++ rand_values e2.
Proof.
  induction e1 as [|e e1 IH]; [reflexivity|].
  destruct e; cbn; by rewrite ?IH.
Qed.

Lemma breathe_trace i :
  0 <= i < LED_COUNT ->
  breathe_calls (trace (led_breathe i)) = [i] /\
  rand_values (trace (led_breathe i)) = [] /\
  forallb in_range (trace (led_breathe i)) = true.
Proof.
  intros Hi.
  destruct (led_index_cases i Hi) as [->|[->| ->]]; by vm_compute.
Qed.

(** *** The random pattern *)

Lemma random_step_run i m :
  rand_nonneg ->
  exists m' evs,
    random_step i m = Done tt m' evs /\
    rand_state m' = (rand_step (rand_state m)).2 /\
    rand_values evs = [(rand_step (rand_state m)).1] /\
    breathe_calls evs = [Z.rem (rand_step (rand_state m)).1 LED_COUNT] /\
    forallb in_range evs = true.
Proof.
  intros Hrand.
  pose proof (Hrand (rand_state m)) as Hr.
  destruct (rand_step (rand_state m)) as [r st'] eqn:Hstep. cbn in Hr |- *.
  assert (Hidx : 0 <= Z.rem r LED_COUNT < LED_COUNT)
    by (apply Z.rem_bound_pos; [done|by vm_compute]).
  destruct (led_lookup _ Hidx) as (l & Hl & Hkey).
  destruct (breathe_trace _ Hidx) as (Hcalls & Hrands & Hrange).
  eexists _, _. split.
  - unfold random_step, rand, bind, get. rewrite Hstep.
    unfold ESP_LOGI, vTaskDelay, put, emit, ret.
    rewrite (index_done leds _ l) by (done || lia). cbn beta iota.
    rewrite (led_breathe_effect _ Hidx). reflexivity.
  - cbn -[trace led_breathe]. rewrite ?app_nil_r.
    rewrite breathe_calls_app, rand_values_app, forallb_app.
    rewrite Hcalls, Hrands, Hrange. done.
Qed.

Lemma random_steps_run xs : forall m,
  rand_nonneg ->
  exists m' evs,
    forM_ xs random_step m = Done tt m' evs /\
    rand_values evs = draws rand_step (length xs) (rand_state m) /\
    breathe_calls evs =
      map (fun r => Z.rem r LED_COUNT)
          (draws rand_step (length xs) (rand_state m)) /\
    forallb in_range evs = true.
Proof.
  induction xs as [|x xs IH]; intros m Hrand.
  - by exists m, [].
  - destruct (random_step_run x m Hrand)
      as (m1 & e1 & Hrun1 & Hst & Hr1 & Hc1 & Hok1).
    destruct (IH m1 Hrand) as (m2 & e2 & Hrun2 & Hr2 & Hc2 & Hok2).
    exists m2, (e1 ++ e2). split.
    { cbn [forM_]. unfold bind. by rewrite Hrun1, Hrun2. }
    rewrite rand_values_app, breathe_calls_app, forallb_app.
    rewrite Hr1, Hr2, Hc1, Hc2, Hok1, Hok2, Hst. cbn [length draws].
    by destruct (rand_step (rand_state m)).
Qed.

Lemma pattern_random_run m :
  rand_nonneg ->
  exists m' evs,
    pattern_random m = Done tt m' evs /\
    rand_values evs = draws rand_step 6 (rand_state m) /\
    breathe_calls evs =
      map (fun r => Z.rem r LED_COUNT) (draws rand_step 6 (rand_state m)) /\
    forallb in_range evs = true.
Proof.
  intros Hrand.
  destruct (random_steps_run (ramp 0 1 6) m Hrand)
    as (m' & evs & Hrun & Hr & Hc & Hok).
  exists m', (EvLog TAG "Pattern: Random Breathing" [] :: evs).
  split; [|done].
  unfold pattern_random, ESP_LOGI, bind, emit.
  rewrite (for_lt_ramp 6) by by vm_compute.
  change (fun i : Z => random_step i) with random_step.
  by rewrite Hrun.
Qed.

Lemma draws_length n : forall st, length (draws rand_step n st) = n.
Proof.
  induction n as [|n IH]; intros st; [reflexivity|].
  cbn [draws]. destruct (rand_step st). cbn. by rewrite IH.
Qed.

(** *** One round of the task *)

Lemma led_pattern_round_run m :
  rand_nonneg ->
  exists m1 m2 m3 e3,
    pattern_knight_rider m = Done tt m1 (trace pattern_knight_rider) /\
    pattern_binary_counter m1 = Done tt m2 (trace pattern_binary_counter) /\
    pattern_random m2 = Done tt m3 e3 /\
    led_pattern_round m =
      Done tt m3 (trace pattern_knight_rider ++
                  trace pattern_binary_counter ++ e3) /\
    length (breathe_calls e3) = 6%nat /\
    forallb in_range e3 = true.
Proof.
  intros Hrand.
  destruct (steady_done _ steady_pattern_knight_rider m) as [m1 H1].
  destruct (steady_done _ steady_pattern_binary_counter m1) as [m2 H2].
  destruct (pattern_random_run m2 Hrand) as (m3 & e3 & H3 & _ & Hc & Hok).
  exists m1, m2, m3, e3.
  split; [exact H1|]. split; [exact H2|]. split; [exact H3|].
  split; [|split; [|exact Hok]].
  - unfold led_pattern_round, bind. rewrite H1, H2, H3. reflexivity.
  - by rewrite Hc, length_map, draws_length.
Qed.

Lemma led_pattern_round_in_range m :
  rand_nonneg ->
  exists m' evs,
    led_pattern_round m = Done tt m' evs /\ forallb in_range evs = true.
Proof.
  intros Hrand.
  destruct (led_pattern_round_run m Hrand)
    as (m1 & m2 & m3 & e3 & _ & _ & _ & Hrun & _ & Hok).
  eexists _, _. split; [exact Hrun|].
  rewrite !forallb_app, Hok.
  assert (Hk : forallb in_range (trace pattern_knight_rider) = true)
    by by vm_compute.
  assert (Hb : forallb in_range (trace pattern_binary_counter) = true)
    by by vm_compute.
  rewrite Hk, Hb. reflexivity.
Qed.

(** ** The properties of the description *)

(** C1 (as the code has it): for every LED index i in [0, 3) and from
    every machine, whatever duty LED i had, [led_breathe i] returns and the
    duty it wrote last, which is the duty committed on LED i's channel when
    it returns, is 3: the falling loop starts at 1023 and steps by 10, so
    it passes from 3 to -7 without writing 0. *)
Theorem led_breathe_final_duty i m :
  0 <= i < LED_COUNT ->
  exists m' evs,
    led_breathe i m = Done tt m' evs /\
    last (duties_written evs) = Some 3 /\
    committed m' !! led_key i = Some 3.
Proof.
  intros Hi. eexists _, _.
  split; [apply (led_breathe_effect i Hi)|].
  split; [|apply committed_write].
  destruct (led_index_cases i Hi) as [->|[->| ->]]; by vm_compute.
Qed.

(** C2: for every LED index i in [0, 3) and from every machine, the
    duties [led_breathe i] writes are the 103 values 0, 10, ..., 1020
    followed by the 103 values 1023, 1013, ..., 3: a non-decreasing run and
    then a non-increasing run, whose largest element is max_duty = 1023,
    206 writes on every call. *)
Theorem led_breathe_duty_sequence i m :
  0 <= i < LED_COUNT ->
  exists m' evs up down,
    led_breathe i m = Done tt m' evs /\
    duties_written evs = up ++ down /\
    up = ramp 0 10 103 /\ down = ramp 1023 (-10) 103 /\
    nondecreasing up = true /\ nonincreasing down = true /\
    maximum (duties_written evs) = Some max_duty /\
    max_duty = 1023 /\
    length (duties_written evs) = (103 + 103)%nat.
Proof.
  intros Hi. eexists _, _, _, _.
  split; [apply (led_breathe_effect i Hi)|].
  split; [|split; [reflexivity|split; [reflexivity|]]].
  - destruct (led_index_cases i Hi) as [->|[->| ->]]; by vm_compute.
  - destruct (led_index_cases i Hi) as [->|[->| ->]]; by vm_compute.
Qed.

(** C3 (as the code has it): for every LED index i in [0, 3) and from
    every machine, the rising loop of [led_breathe] writes 0, 10, ...,
    1020 in steps of 10; the last and largest duty it writes is 1020, not
    max_duty = 1023, since 1023 is not a multiple of the step. *)
Theorem led_breathe_rise_last_duty i m :
  0 <= i < LED_COUNT ->
  exists m' evs,
    led_breathe_rise i m = Done tt m' evs /\
    duties_written evs = ramp 0 10 103 /\
    last (duties_written evs) = Some 1020 /\
    maximum (duties_written evs) = Some 1020 /\
    committed m' !! led_key i = Some 1020 /\
    max_duty = 1023.
Proof.
  intros Hi. eexists _, _.
  split; [apply (led_breathe_rise_effect i Hi)|].
  split; [|split; [|split; [|split; [apply committed_write|reflexivity]]]];
    destruct (led_index_cases i Hi) as [->|[->| ->]]; by vm_compute.
Qed.

(** C4: from every machine, one call of [pattern_knight_rider] (3 LEDs)
    returns and calls [led_breathe] on exactly the indices 0, 1, 2, 1, in
    that order. *)
Theorem pattern_knight_rider_order m :
  exists m' evs,
    pattern_knight_rider m = Done tt m' evs /\
    breathe_calls evs = [0; 1; 2; 1].
Proof.
  destruct (steady_done _ steady_pattern_knight_rider m) as [m' Hrun].
  exists m', (trace pattern_knight_rider). split; [exact Hrun|].
  by vm_compute.
Qed.

(** C5: from every machine, [pattern_binary_counter] (3 LEDs) runs as its
    description: for count = 0, ..., 7 and, within a count, for i = 0, 1, 2
    in this order, [led_breathe i] when bit i of count is set and
    [led_set_brightness i 0] otherwise, then the delay between counts.  It
    returns.  The pass for count = 5 is a breath of LED 0, brightness 0 on
    LED 1, a breath of LED 2 and the delay: it calls [led_breathe] on 0 and
    2 only and leaves the duty 0 committed on LED 1. *)
Theorem pattern_binary_counter_passes m :
  pattern_binary_counter m = binary_counter_described m /\
  (exists m' evs, pattern_binary_counter m = Done tt m' evs) /\
  binary_counter_pass 5 m =
    (led_breathe 0 ;; led_set_brightness 1 0 ;; led_breathe 2 ;;
     vTaskDelay (pdMS_TO_TICKS BLINK_DELAY)) m /\
  exists m5 evs5,
    binary_counter_pass 5 m = Done tt m5 evs5 /\
    breathe_calls evs5 = [0; 2] /\
    committed m5 !! led_key 1 = Some 0.
Proof.
  assert (H0 : 0 <= 0 < LED_COUNT) by by vm_compute.
  assert (H1 : 0 <= 1 < LED_COUNT) by by vm_compute.
  assert (H2 : 0 <= 2 < LED_COUNT) by by vm_compute.
  assert (Hpass : forall m1, binary_counter_pass 5 m1 =
    (led_breathe 0 ;; led_set_brightness 1 0 ;; led_breathe 2 ;;
     vTaskDelay (pdMS_TO_TICKS BLINK_DELAY)) m1).
  { intros m1. rewrite binary_counter_pass_described.
    unfold counter_pass. change (Z.to_nat LED_COUNT) with 3%nat.
    cbn [forM_ ramp]. unfold counter_led.
    change (0 + 1 + 1) with 2. change (0 + 1) with 1.
    change (Z.testbit 5 0) with true. change (Z.testbit 5 1) with false.
    change (Z.testbit 5 2) with true. cbv iota.
    unfold bind.
    rewrite (led_breathe_effect 0 H0), (led_set_brightness_effect 1 0 H1),
      (led_breathe_effect 2 H2).
    unfold ret, vTaskDelay, emit.
    by rewrite !app_nil_r, <- !app_assoc. }
  split; [apply pattern_binary_counter_unrolled|].
  split.
  { destruct (steady_done _ steady_pattern_binary_counter m) as [m' Hrun].
    by exists m', (trace pattern_binary_counter). }
  split; [apply Hpass|].
  rewrite Hpass. unfold bind.
  rewrite (led_breathe_effect 0 H0), (led_set_brightness_effect 1 0 H1),
    (led_breathe_effect 2 H2).
  unfold vTaskDelay, emit. eexists _, _. split; [reflexivity|]. split.
  - rewrite !breathe_calls_app.
    destruct (breathe_trace 0 H0) as [-> _], (breathe_trace 2 H2) as [-> _].
    reflexivity.
  - rewrite committed_write_ne by (by vm_compute).
    apply committed_write.
Qed.

(** C6: when [rand] keeps its promise, one round of [led_pattern_task] is
    [pattern_knight_rider], then [pattern_binary_counter], then
    [pattern_random], each started where the one before it returned; the
    round returns, and it calls [led_breathe] 4 times in the first, 12
    times (the sum of the numbers of set bits of 0, ..., 7) in the second
    and 6 times in the third: 22 times in all, from every machine. *)
Theorem led_pattern_round_breathe_count m :
  rand_nonneg ->
  exists m1 e1 m2 e2 m3 e3,
    pattern_knight_rider m = Done tt m1 e1 /\
    pattern_binary_counter m1 = Done tt m2 e2 /\
    pattern_random m2 = Done tt m3 e3 /\
    led_pattern_round m = Done tt m3 (e1 ++ e2 ++ e3) /\
    length (breathe_calls e1) = 4%nat /\
    length (breathe_calls e2) = sum_list (popcount 3 <$> ramp 0 1 8) /\
    length (breathe_calls e2) = 12%nat /\
    length (breathe_calls e3) = 6%nat /\
    length (breathe_calls (e1 ++ e2 ++ e3)) = 22%nat.
Proof.
  intros Hrand.
  destruct (led_pattern_round_run m Hrand)
    as (m1 & m2 & m3 & e3 & H1 & H2 & H3 & Hrun & Hlen & _).
  exists m1, (trace pattern_knight_rider), m2,
    (trace pattern_binary_counter), m3, e3.
  assert (Hk : length (breathe_calls (trace pattern_knight_rider)) = 4%nat)
    by by vm_compute.
  assert (Hb : length (breathe_calls (trace pattern_binary_counter)) = 12%nat)
    by by vm_compute.
  split; [exact H1|]. split; [exact H2|]. split; [exact H3|].
  split; [exact Hrun|]. split; [exact Hk|].
  split; [rewrite Hb; by vm_compute|]. split; [exact Hb|].
  split; [exact Hlen|].
  rewrite !breathe_calls_app, !length_app, Hk, Hb, Hlen. reflexivity.
Qed.

(** C7: when [rand] keeps its promise, [pattern_random] started after
    [srand seed] returns from every machine, draws from [rand] exactly 6
    times, and calls [led_breathe] once per draw on the draw's remainder
    by 3; every index it chooses is in [0, 3), and two runs with the same
    seed choose the same indices whatever else the machines hold. *)
Theorem pattern_random_reproducible seed m1 m2 :
  rand_nonneg ->
  exists m1' e1 m2' e2,
    (srand seed ;; pattern_random) m1 = Done tt m1' e1 /\
    (srand seed ;; pattern_random) m2 = Done tt m2' e2 /\
    length (rand_values e1) = 6%nat /\
    breathe_calls e1 =
      map (fun r => Z.rem r LED_COUNT) (draws rand_step 6 seed) /\
    Forall (fun i => 0 <= i < LED_COUNT) (breathe_calls e1) /\
    breathe_calls e1 = breathe_calls e2.
Proof.
  intros Hrand.
  destruct (pattern_random_run (set_rand_state seed m1) Hrand)
    as (m1' & e1 & Hrun1 & Hr1 & Hc1 & _).
  destruct (pattern_random_run (set_rand_state seed m2) Hrand)
    as (m2' & e2 & Hrun2 & _ & Hc2 & _).
  cbn [rand_state set_rand_state] in Hr1, Hc1, Hc2.
  exists m1', e1, m2', e2.
  split; [unfold srand, bind, get, put; by rewrite Hrun1|].
  split; [unfold srand, bind, get, put; by rewrite Hrun2|].
  split; [by rewrite Hr1, draws_length|].
  split; [exact Hc1|].
  split; [|by rewrite Hc1, Hc2].
  rewrite Hc1. apply Forall_forall. intros i Hi.
  apply list_elem_of_fmap in Hi as (r & -> & Hr).
  assert (0 <= r).
  { clear -Hr Hrand. revert Hr. generalize 6%nat. intros n.
    revert seed. induction n as [|n IH]; intros st Hr; cbn [draws] in Hr.
    - by apply elem_of_nil in Hr.
    - pose proof (Hrand st) as Hst.
      destruct (rand_step st) as [r0 st'].
      apply elem_of_cons in Hr as [->|Hr]; [exact Hst|by eapply IH]. }
  apply Z.rem_bound_pos; [done|by vm_compute].
Qed.

(** C8: when [rand] keeps its promise, any number of rounds of
    [led_pattern_task] returns from every machine, without abort and
    without a read outside [leds]; every duty handed to [ledc_set_duty] or
    to [led_set_brightness] is in [0, 1023], every channel is the channel
    of one of the LEDs, and every LED index handed to [led_set_brightness]
    or [led_breathe] is in [0, LED_COUNT). *)
Theorem led_pattern_task_in_range n : forall m,
  rand_nonneg ->
  exists m' evs,
    led_pattern_task n m = Done tt m' evs /\
    forallb in_range evs = true.
Proof.
  induction n as [|n IH]; intros m Hrand.
  - by exists m, [].
  - destruct (led_pattern_round_in_range m Hrand) as (m1 & e1 & Hrun1 & Hok1).
    destruct (IH m1 Hrand) as (m2 & e2 & Hrun2 & Hok2).
    exists m2, (e1 ++ e2). split.
    + cbn [led_pattern_task]. unfold bind. rewrite Hrun1, Hrun2. reflexivity.
    + by rewrite forallb_app, Hok1, Hok2.
Qed.

(** C10: for every LED index i in [0, 3) and every duty d, from every
    machine [led_set_brightness i d] returns having latched and committed
    d on LED i's channel and on no other register: its events name that
    channel only, and the latched and the committed duty of every other
    register, those of the other LEDs among them, are as before. *)
Theorem led_set_brightness_frame i d m :
  0 <= i < LED_COUNT ->
  exists m',
    led_set_brightness i d m =
      Done tt m' [EvEnter_led_set_brightness i d;
                  EvSetDuty LED_MODE (led_key i).2 d;
                  EvUpdateDuty LED_MODE (led_key i).2] /\
    committed m' !! led_key i = Some d /\
    (forall k, k ≠ led_key i ->
       committed m' !! k = committed m !! k /\
       latched m' !! k = latched m !! k) /\
    (forall j, 0 <= j < LED_COUNT -> j ≠ i ->
       committed m' !! led_key j = committed m !! led_key j).
Proof.
  intros Hi. exists (write (led_key i) d m).
  split; [apply (led_set_brightness_effect i d Hi)|].
  split; [apply committed_write|].
  split.
  - intros k Hk. split.
    + by apply committed_write_ne.
    + by apply latched_write_ne.
  - intros j Hj Hji. apply committed_write_ne.
    intros Heq. apply Hji. symmetry. by apply led_key_inj.
Qed.

(** *** Initialisation *)

Lemma led_init_unrolled m :
  led_init m =
  (ESP_ERROR_CHECK (ledc_timer_config timer_config_of_leds) ;;
   forM_ (ramp 0 1 3) (fun i =>
     l <- index leds i ;;
     ESP_ERROR_CHECK (ledc_channel_config (channel_config_of l))) ;;
   ESP_LOGI TAG "LED PWM Initialized (%d LEDs)" [LED_COUNT]) m.
Proof.
  unfold led_init. cbn zeta.
  apply bind_ext; [reflexivity|]. intros _ m1.
  apply bind_ext; [|reflexivity].
  apply for_leds.
Qed.

Lemma check_timer_config cfg m :
  ESP_ERROR_CHECK (ledc_timer_config cfg) m =
  if timer_verdict cfg =? ESP_OK
  then Done tt (set_timer (tc_speed_mode cfg, tc_timer_num cfg) cfg m)
         [EvTimerConfig cfg ESP_OK]
  else Abort (timer_verdict cfg) [EvTimerConfig cfg (timer_verdict cfg)].
Proof.
  unfold ESP_ERROR_CHECK, ledc_timer_config, bind, emit, get, put, ret, abort.
  destruct (Z.eqb_spec (timer_verdict cfg) ESP_OK) as [Hv|Hv]; cbn.
  - rewrite Hv. reflexivity.
  - destruct (Z.eqb_spec (timer_verdict cfg) ESP_OK); [done|reflexivity].
Qed.

Lemma check_channel_config cfg m :
  ESP_ERROR_CHECK (ledc_channel_config cfg) m =
  if channel_verdict cfg =? ESP_OK
  then Done tt (write (cc_speed_mode cfg, cc_channel cfg) (cc_duty cfg)
                  (set_bound (cc_speed_mode cfg, cc_channel cfg) cfg m))
         [EvChannelConfig cfg ESP_OK]
  else Abort (channel_verdict cfg) [EvChannelConfig cfg (channel_verdict cfg)].
Proof.
  unfold ESP_ERROR_CHECK, ledc_channel_config, bind, emit, get, put, ret, abort.
  destruct (Z.eqb_spec (channel_verdict cfg) ESP_OK) as [Hv|Hv]; cbn.
  - rewrite Hv. reflexivity.
  - destruct (Z.eqb_spec (channel_verdict cfg) ESP_OK); [done|reflexivity].
Qed.

(** C9: from every machine, [led_init] asks the driver for one timer and
    then, LED by LED, for one channel bound to the LED's pin and to that
    timer at duty 0.  It aborts exactly when the hardware rejects the
    timer or one of the channels, with the code of the rejection;
    otherwise it returns, and then the timer and all three channels are
    configured and every channel has duty 0 latched and committed.  No
    outcome carries a machine in which only some were configured. *)
Theorem led_init_outcome m :
  ((exists code evs, led_init m = Abort code evs) <->
   (timer_verdict timer_config_of_leds ≠ ESP_OK \/
    exists l, l ∈ leds /\ channel_verdict (channel_config_of l) ≠ ESP_OK)) /\
  ((exists code evs, led_init m = Abort code evs /\ code ≠ ESP_OK) \/
   (exists m',
      led_init m =
        Done tt m'
          (EvTimerConfig timer_config_of_leds ESP_OK ::
           map (fun l => EvChannelConfig (channel_config_of l) ESP_OK) leds ++
           [EvLog TAG "LED PWM Initialized (%d LEDs)" [LED_COUNT]]) /\
      timers m' !! (LED_MODE, LED_TIMER) = Some timer_config_of_leds /\
      forall l, l ∈ leds ->
        bound m' !! (LED_MODE, channel l) = Some (channel_config_of l) /\
        latched m' !! (LED_MODE, channel l) = Some 0 /\
        committed m' !! (LED_MODE, channel l) = Some 0)).
Proof.
  clear rand_step entropy.
  set (l0 := {| gpio := LED1_GPIO; channel := LED1_CH |}).
  set (l1 := {| gpio := LED2_GPIO; channel := LED2_CH |}).
  set (l2 := {| gpio := LED3_GPIO; channel := LED3_CH |}).
  assert (Hleds : forall l, l ∈ leds <-> l = l0 \/ l = l1 \/ l = l2).
  { intros l. unfold leds. fold l0 l1 l2. rewrite !elem_of_cons, elem_of_nil.
    tauto. }
  rewrite led_init_unrolled. cbn [forM_ ramp].
  change (index leds 0) with (ret l0).
  change (index leds (0 + 1)) with (ret l1).
  change (index leds (0 + 1 + 1)) with (ret l2).
  match goal with |- context [bind ?c ?k m] =>
    remember (bind c k m) as o eqn:Ho end.
  revert Ho. unfold bind at 1. rewrite check_timer_config.
  destruct (Z.eqb_spec (timer_verdict timer_config_of_leds) ESP_OK) as [Ht|Ht].
  2: { intros ->. split.
       - split; [by left|]. intros _. by eexists _, _.
       - left. by eexists _, _. }
  unfold bind, ret. rewrite check_channel_config.
  destruct (Z.eqb_spec (channel_verdict (channel_config_of l0)) ESP_OK) as [H0|H0].
  2: { intros ->. split.
       - split; [|intros _; by eexists _, _].
         intros _. right. exists l0. split; [by apply Hleds; left|done].
       - left. by eexists _, _. }
  rewrite check_channel_config.
  destruct (Z.eqb_spec (channel_verdict (channel_config_of l1)) ESP_OK) as [H1|H1].
  2: { intros ->. split.
       - split; [|intros _; by eexists _, _].
         intros _. right. exists l1. split; [by apply Hleds; right; left|done].
       - left. by eexists _, _. }
  rewrite check_channel_config.
  destruct (Z.eqb_spec (channel_verdict (channel_config_of l2)) ESP_OK) as [H2|H2].
  2: { intros ->. split.
       - split; [|intros _; by eexists _, _].
         intros _. right. exists l2. split; [by apply Hleds; right; right|done].
       - left. by eexists _, _. }
  intros ->. split.
  - split; [intros (code & evs & Habs); discriminate Habs|].
    intros [Hrej|(l & Hl & Hrej)]; [done|].
    apply Hleds in Hl as [->|[->| ->]]; done.
  - right. eexists. split; [reflexivity|split].
    + cbn. by rewrite lookup_insert_eq.
    + intros l Hl.
      apply Hleds in Hl as [->|[->| ->]]; cbn;
        repeat split;
        repeat first [ apply lookup_insert_eq
                     | rewrite lookup_insert_ne by (by vm_compute) ].
Qed.

(** ** Machines after a run *)

Lemma write_all_cons w ws m :
  write_all (w :: ws) m = write_all ws (write w.1 w.2 m).
Proof. reflexivity. Qed.

Lemma write_all_app ws1 ws2 m :
  write_all (ws1 ++ ws2) m = write_all ws2 (write_all ws1 m).
Proof. unfold write_all. apply foldl_app. Qed.

Lemma write_all_frame ws : forall m,
  timers (write_all ws m) = timers m /\
  bound (write_all ws m) = bound m /\
  rand_state (write_all ws m) = rand_state m.
Proof.
  induction ws as [|w ws IH]; intros m; [done|].
  rewrite write_all_cons. destruct (IH (write w.1 w.2 m)) as (-> & -> & ->).
  done.
Qed.

Lemma write_all_coherent ws : forall m,
  coherent m -> coherent (write_all ws m).
Proof.
  induction ws as [|w ws IH]; intros m Hm; [done|].
  rewrite write_all_cons. apply IH. unfold coherent in *. cbn. by rewrite Hm.
Qed.

Lemma write_all_set_rand_state ws : forall st m,
  write_all ws (set_rand_state st m) = set_rand_state st (write_all ws m).
Proof.
  induction ws as [|w ws IH]; intros st m; [done|].
  rewrite !write_all_cons.
  change (write w.1 w.2 (set_rand_state st m))
    with (set_rand_state st (write w.1 w.2 m)).
  apply IH.
Qed.

Lemma final_duty_snoc ws w k :
  final_duty (ws ++ [w]) k =
  if decide (w.1 = k) then Some w.2 else final_duty ws k.
Proof. unfold final_duty. by rewrite foldl_app. Qed.

(** The duty of a register after writes is the last one written on it. *)
Lemma write_all_lookup ws k : forall m,
  committed (write_all ws m) !! k =
    from_option Some (committed m !! k) (final_duty ws k) /\
  latched (write_all ws m) !! k =
    from_option Some (latched m !! k) (final_duty ws k).
Proof.
  induction ws as [|w ws IH] using rev_ind; intros m; [done|].
  rewrite write_all_app, final_duty_snoc, write_all_cons.
  change (write_all [] ?x) with x.
  destruct (IH m) as [IHc IHl].
  destruct (decide (w.1 = k)) as [<-|Hne].
  - cbn. by rewrite !lookup_insert_eq.
  - cbn. by rewrite !lookup_insert_ne.
Qed.

Lemma final_duty_same ws k d :
  Forall (fun w => w.2 = d) ws ->
  final_duty ws k = None \/ final_duty ws k = Some d.
Proof.
  induction ws as [|w ws IH] using rev_ind; intros Hws; [by left|].
  apply Forall_app in Hws as [Hws Hw]. apply (proj1 (Forall_singleton _ _)) in Hw. cbn beta in Hw.
  rewrite final_duty_snoc. destruct (decide (w.1 = k)); [|by apply IH].
  right. by rewrite Hw.
Qed.

Lemma final_duty_other ws k :
  Forall (fun w => w.1 ≠ k) ws -> final_duty ws k = None.
Proof.
  induction ws as [|w ws IH] using rev_ind; intros Hws; [done|].
  apply Forall_app in Hws as [Hws Hw]. apply (proj1 (Forall_singleton _ _)) in Hw. cbn beta in Hw.
  rewrite final_duty_snoc. destruct (decide (w.1 = k)); [done|by apply IH].
Qed.

Lemma write_all_same ws k d m :
  Forall (fun w => w.2 = d) ws ->
  committed m !! k = Some d ->
  committed (write_all ws m) !! k = Some d.
Proof.
  intros Hws Hm. rewrite (proj1 (write_all_lookup ws k m)), Hm.
  by destruct (final_duty_same ws k d Hws) as [-> | ->].
Qed.

Lemma write_all_other ws k m :
  Forall (fun w => w.1 ≠ k) ws ->
  committed (write_all ws m) !! k = committed m !! k /\
  latched (write_all ws m) !! k = latched m !! k.
Proof.
  intros Hws.
  destruct (write_all_lookup ws k m) as [-> ->].
  by rewrite (final_duty_other ws k Hws).
Qed.

(** *** Programs that leave writes *)

Lemma leaves_steady c ws : leaves c ws -> steady c.
Proof. intros Hc. by exists (write_all ws). Qed.

Lemma leaves_of_effect c ws e : effect c (write_all ws) e -> leaves c ws.
Proof. intros Hc. unfold leaves. by rewrite <- (effect_trace _ _ _ Hc). Qed.

Lemma leaves_ret : leaves (ret tt) [].
Proof. apply (leaves_of_effect _ _ []), effect_ret. Qed.

Lemma leaves_emit e : leaves (emit e) [].
Proof. apply (leaves_of_effect _ _ [e]), effect_emit. Qed.

Lemma leaves_seq (c k : M unit) ws1 ws2 :
  leaves c ws1 -> leaves k ws2 -> leaves (c ;; k) (ws1 ++ ws2).
Proof.
  intros Hc Hk. apply (leaves_of_effect _ _ (trace c ++ trace k)).
  intros m. rewrite write_all_app. by apply effect_seq.
Qed.

Lemma leaves_ext (c c' : M unit) ws :
  (forall m, c' m = c m) -> leaves c ws -> leaves c' ws.
Proof.
  intros Hc Hl. apply (leaves_of_effect _ _ (trace c)).
  intros m. rewrite Hc. apply Hl.
Qed.

Lemma leaves_forM_ xs (body : Z -> M unit) W :
  (forall x, x ∈ xs -> leaves (body x) (W x)) ->
  leaves (forM_ xs body) (concat (map W xs)).
Proof.
  induction xs as [|x xs IH]; intros Hb; [apply leaves_ret|].
  cbn [forM_ map concat]. apply leaves_seq.
  - apply Hb. left.
  - apply IH. intros y Hy. apply Hb. by right.
Qed.

Lemma trace_forM_ xs (body : Z -> M unit) :
  (forall x, x ∈ xs -> steady (body x)) ->
  trace (forM_ xs body) = concat (map (fun x => trace (body x)) xs).
Proof.
  induction xs as [|x xs IH]; intros Hb; [reflexivity|].
  cbn [forM_ map concat]. rewrite trace_seq.
  - rewrite IH; [reflexivity|]. intros y Hy. apply Hb. by right.
  - apply Hb. left.
  - apply steady_forM_. intros y Hy. apply Hb. by right.
Qed.

Lemma trace_ext (c c' : M unit) : (forall m, c' m = c m) -> trace c' = trace c.
Proof. intros Hc. unfold trace. by rewrite Hc. Qed.

Lemma leaves_led_set_brightness i d :
  0 <= i < LED_COUNT -> leaves (led_set_brightness i d) [(led_key i, d)].
Proof.
  intros Hi. eapply leaves_of_effect.
  apply (led_set_brightness_effect i d Hi).
Qed.

Lemma leaves_led_breathe i :
  0 <= i < LED_COUNT -> leaves (led_breathe i) [(led_key i, 3)].
Proof. intros Hi. apply (led_breathe_effect i Hi). Qed.

Lemma leaves_done c ws m : leaves c ws -> c m = Done tt (write_all ws m) (trace c).
Proof. intros Hc. apply Hc. Qed.

(** *** Sleeping time *)

Lemma delay_ms_app e1 e2 : delay_ms (e1 ++ e2) = delay_ms e1 + delay_ms e2.
Proof.
  induction e1 as [|e e1 IH]; [reflexivity|].
  destruct e as [| | | | |[ms]| | | |]; cbn; rewrite ?IH; lia.
Qed.

Lemma breathe_delay i :
  0 <= i < LED_COUNT -> delay_ms (trace (led_breathe i)) = 2060.
Proof.
  intros Hi.
  destruct (led_index_cases i Hi) as [->|[->| ->]]; by vm_compute.
Qed.

(** *** Indices outside [leds] *)




(** X2: for every LED index i in [0, 3), [led_breathe i] changes the
    latched and the committed duty of LED i and nothing else: the timers,
    the channel bindings, the state of the generator and the duties of
    every other register are as before. *)
Theorem led_breathe_frame i m :
  0 <= i < LED_COUNT ->
  exists m' evs,
    led_breathe i m = Done tt m' evs /\
    timers m' = timers m /\ bound m' = bound m /\
    rand_state m' = rand_state m /\
    latched m' !! led_key i = committed m' !! led_key i /\
    forall k, k ≠ led_key i ->
      latched m' !! k = latched m !! k /\
      committed m' !! k = committed m !! k.
Proof.
  intros Hi. eexists _, _.
  split; [apply (led_breathe_effect i Hi)|].
  repeat split.
  - cbn. by rewrite !lookup_insert_eq.
  - by apply latched_write_ne.
  - by apply committed_write_ne.
Qed.

(** X3: for every LED index i in [0, 3), the events of [led_breathe i] are
    the same from every machine, and the run sleeps 103 + 103 times
    STEP_DELAY, 2060 ms in all. *)
Theorem led_breathe_duration i :
  0 <= i < LED_COUNT ->
  exists evs,
    (forall m, exists m', led_breathe i m = Done tt m' evs) /\
    delay_ms evs = (103 + 103) * STEP_DELAY /\
    delay_ms evs = 2060.
Proof.
  intros Hi. exists (trace (led_breathe i)). split.
  - intros m. eexists. apply (led_breathe_effect i Hi).
  - by rewrite breathe_delay.
Qed.

(** *** One pass of the binary counter *)

Lemma counter_led_leaves count i :
  0 <= i < LED_COUNT ->
  leaves (counter_led count i) [(led_key i, pass_duty count i)] /\
  breathe_calls (trace (counter_led count i)) =
    (if Z.testbit count i then [i] else []) /\
  delay_ms (trace (counter_led count i)) =
    (if Z.testbit count i then 2060 else 0) /\
  rand_values (trace (counter_led count i)) = [].
Proof.
  intros Hi. unfold counter_led, pass_duty.
  destruct (Z.testbit count i).
  - split; [by apply leaves_led_breathe|].
    destruct (breathe_trace i Hi) as (-> & -> & _).
    by rewrite breathe_delay.
  - split; [by apply leaves_led_set_brightness|].
    destruct (led_index_cases i Hi) as [->|[->| ->]]; by vm_compute.
Qed.

Lemma counter_pass_leaves count :
  leaves (counter_pass count)
    [(led_key 0, pass_duty count 0); (led_key 1, pass_duty count 1);
     (led_key 2, pass_duty count 2)] /\
  length (breathe_calls (trace (counter_pass count))) = popcount 3 count /\
  delay_ms (trace (counter_pass count)) =
    BLINK_DELAY + 2060 * Z.of_nat (popcount 3 count) /\
  rand_values (trace (counter_pass count)) = [].
Proof.
  assert (H0 : 0 <= 0 < LED_COUNT) by by vm_compute.
  assert (H1 : 0 <= 1 < LED_COUNT) by by vm_compute.
  assert (H2 : 0 <= 2 < LED_COUNT) by by vm_compute.
  destruct (counter_led_leaves count 0 H0) as (L0 & C0 & D0 & R0).
  destruct (counter_led_leaves count 1 H1) as (L1 & C1 & D1 & R1).
  destruct (counter_led_leaves count 2 H2) as (L2 & C2 & D2 & R2).
  assert (Hl : leaves (forM_ (ramp 0 1 3) (counter_led count))
                 [(led_key 0, pass_duty count 0); (led_key 1, pass_duty count 1);
                  (led_key 2, pass_duty count 2)]).
  { cbn [forM_ ramp]. change (0 + 1 + 1) with 2. change (0 + 1) with 1.
    apply (leaves_seq _ _ [_] [_; _]); [exact L0|].
    apply (leaves_seq _ _ [_] [_]); [exact L1|].
    apply (leaves_seq _ _ [_] []); [exact L2|apply leaves_ret]. }
  assert (Ht : trace (counter_pass count) =
               trace (counter_led count 0) ++ trace (counter_led count 1) ++
               trace (counter_led count 2) ++
               [EvDelay (pdMS_TO_TICKS BLINK_DELAY)]).
  { unfold counter_pass. change (Z.to_nat LED_COUNT) with 3%nat.
    rewrite trace_seq;
      [|exact (leaves_steady _ _ Hl)|apply steady_emit].
    rewrite trace_forM_.
    - cbn [map concat ramp]. change (0 + 1 + 1) with 2. change (0 + 1) with 1.
      by rewrite app_nil_r, <- !app_assoc.
    - intros x Hx. apply ramp_leds in Hx.
      destruct (counter_led_leaves count x Hx) as [Hlx _].
      exact (leaves_steady _ _ Hlx). }
  split.
  { unfold counter_pass. change (Z.to_nat LED_COUNT) with 3%nat.
    apply (leaves_seq _ _ [_; _; _] []); [exact Hl|apply leaves_emit]. }
  rewrite Ht, !breathe_calls_app, !delay_ms_app, !rand_values_app, !length_app.
  rewrite C0, C1, C2, D0, D1, D2, R0, R1, R2.
  cbn [popcount Z.of_nat]. change (Z.of_nat 2) with 2. change (Z.of_nat 1) with 1.
  change (Z.of_nat 0) with 0.
  destruct (Z.testbit count 0), (Z.testbit count 1), (Z.testbit count 2);
    by vm_compute.
Qed.

(** X4: for every count and from every machine, one pass of the binary
    counter returns and leaves on each LED i the duty 3 when bit i of count
    is set and the duty 0 when it is not; it calls [led_breathe] once per
    set bit among the lowest three, and sleeps BLINK_DELAY plus 2060 ms per
    set bit. *)
Theorem binary_counter_pass_display count m :
  0 <= count ->
  exists m' evs,
    binary_counter_pass count m = Done tt m' evs /\
    (forall i, 0 <= i < LED_COUNT ->
       committed m' !! led_key i = Some (pass_duty count i)) /\
    length (breathe_calls evs) = popcount 3 count /\
    delay_ms evs = BLINK_DELAY + 2060 * Z.of_nat (popcount 3 count).
Proof.
  intros _.
  destruct (counter_pass_leaves count) as (Hl & Hc & Hd & _).
  eexists _, _. split.
  { rewrite binary_counter_pass_described. apply (leaves_done _ _ _ Hl). }
  split; [|by split].
  intros i Hi. rewrite (proj1 (write_all_lookup _ _ _)).
  destruct (led_index_cases i Hi) as [->|[->| ->]]; by vm_compute.
Qed.

(** *** The patterns *)

Lemma leaves_writes_eq c ws ws' : ws' = ws -> leaves c ws -> leaves c ws'.
Proof. by intros ->. Qed.

Lemma leaves_pattern_knight_rider :
  leaves pattern_knight_rider
    [(led_key 0, 3); (led_key 1, 3); (led_key 2, 3); (led_key 1, 3)].
Proof.
  unfold pattern_knight_rider.
  apply (leaves_seq _ _ [] [_; _; _; _]); [apply leaves_emit|].
  apply (leaves_seq _ _ [_; _; _] [_]).
  - eapply leaves_ext; [apply for_leds|].
    eapply leaves_writes_eq;
      [|apply (leaves_forM_ _ _ (fun x => [(led_key x, 3)]))].
    + reflexivity.
    + intros x Hx. by apply leaves_led_breathe, ramp_leds.
  - eapply leaves_ext; [by apply (for_gt_ramp 1)|].
    eapply leaves_writes_eq;
      [|apply (leaves_forM_ _ _ (fun x => [(led_key x, 3)]))].
    + reflexivity.
    + intros x Hx. apply leaves_led_breathe.
      apply ramp_elem in Hx as (j & Hj & ->).
      change LED_COUNT with 3. lia.
Qed.

(** X5: from every machine, [pattern_knight_rider] returns with the duty 3
    committed on every LED; it never draws from [rand], and it sleeps four
    breaths, 8240 ms. *)
Theorem pattern_knight_rider_leaves m :
  exists m' evs,
    pattern_knight_rider m = Done tt m' evs /\
    (forall i, 0 <= i < LED_COUNT -> committed m' !! led_key i = Some 3) /\
    rand_state m' = rand_state m /\
    rand_values evs = [] /\
    delay_ms evs = 4 * 2060.
Proof.
  eexists _, _.
  split; [apply (leaves_done _ _ _ leaves_pattern_knight_rider)|].
  split; [|split; [|split]].
  - intros i Hi. rewrite (proj1 (write_all_lookup _ _ _)).
    destruct (led_index_cases i Hi) as [->|[->| ->]]; by vm_compute.
  - apply write_all_frame.
  - by vm_compute.
  - by vm_compute.
Qed.

Lemma leaves_pattern_binary_counter :
  leaves pattern_binary_counter
    (concat (map (fun count =>
                    [(led_key 0, pass_duty count 0);
                     (led_key 1, pass_duty count 1);
                     (led_key 2, pass_duty count 2)])
                 (ramp 0 1 8))).
Proof.
  eapply leaves_ext; [apply pattern_binary_counter_unrolled|].
  unfold binary_counter_described.
  change (Z.to_nat (2 ^ LED_COUNT)) with 8%nat.
  eapply leaves_writes_eq; cycle 1.
  - apply leaves_seq; [apply leaves_emit|].
    apply (leaves_forM_ _ _ (fun count =>
             [(led_key 0, pass_duty count 0);
              (led_key 1, pass_duty count 1);
              (led_key 2, pass_duty count 2)])).
    intros count _. apply counter_pass_leaves.
  - reflexivity.
Qed.

(** X6: from every machine, [pattern_binary_counter] returns with the duty
    3 committed on every LED (its last pass shows 7); it never draws from
    [rand], and it sleeps twelve breaths and eight times BLINK_DELAY,
    27120 ms. *)
Theorem pattern_binary_counter_leaves m :
  exists m' evs,
    pattern_binary_counter m = Done tt m' evs /\
    (forall i, 0 <= i < LED_COUNT -> committed m' !! led_key i = Some 3) /\
    rand_state m' = rand_state m /\
    rand_values evs = [] /\
    delay_ms evs = 12 * 2060 + 8 * BLINK_DELAY.
Proof.
  eexists _, _.
  split; [apply (leaves_done _ _ _ leaves_pattern_binary_counter)|].
  split; [|split; [|split]].
  - intros i Hi. rewrite (proj1 (write_all_lookup _ _ _)).
    destruct (led_index_cases i Hi) as [->|[->| ->]]; by vm_compute.
  - apply write_all_frame.
  - by vm_compute.
  - by vm_compute.
Qed.

(** *** The machine after the random pattern *)

Lemma set_rand_state_same m : set_rand_state (rand_state m) m = m.
Proof. by destruct m. Qed.

Lemma random_step_machine i m :
  rand_nonneg ->
  exists evs,
    random_step i m =
      Done tt (write (led_key (Z.rem (rand_step (rand_state m)).1 LED_COUNT)) 3
                 (set_rand_state (rand_step (rand_state m)).2 m)) evs /\
    rand_values evs = [(rand_step (rand_state m)).1] /\
    breathe_calls evs = [Z.rem (rand_step (rand_state m)).1 LED_COUNT] /\
    forallb in_range evs = true /\
    delay_ms evs = 2060 + BLINK_DELAY.
Proof.
  intros Hrand.
  pose proof (Hrand (rand_state m)) as Hr.
  destruct (rand_step (rand_state m)) as [r st'] eqn:Hstep. cbn in Hr |- *.
  assert (Hidx : 0 <= Z.rem r LED_COUNT < LED_COUNT)
    by (apply Z.rem_bound_pos; [done|by vm_compute]).
  destruct (led_lookup _ Hidx) as (l & Hl & Hkey).
  destruct (breathe_trace _ Hidx) as (Hcalls & Hrands & Hrange).
  pose proof (breathe_delay _ Hidx) as Hdelay.
  eexists. split.
  - unfold random_step, rand, bind, get. rewrite Hstep.
    unfold ESP_LOGI, vTaskDelay, put, emit, ret.
    rewrite (index_done leds _ l) by (done || lia). cbn beta iota.
    rewrite (led_breathe_effect _ Hidx). reflexivity.
  - cbn -[trace led_breathe]. rewrite ?app_nil_r.
    rewrite breathe_calls_app, rand_values_app, forallb_app, delay_ms_app.
    rewrite Hcalls, Hrands, Hrange, Hdelay. done.
Qed.

Lemma random_steps_machine xs : forall m,
  rand_nonneg ->
  exists evs,
    forM_ xs random_step m =
      Done tt
        (write_all (random_writes (draws rand_step (length xs) (rand_state m)))
           (set_rand_state (rand_after rand_step (length xs) (rand_state m)) m))
        evs /\
    rand_values evs = draws rand_step (length xs) (rand_state m) /\
    breathe_calls evs =
      map (fun r => Z.rem r LED_COUNT)
          (draws rand_step (length xs) (rand_state m)) /\
    forallb in_range evs = true /\
    delay_ms evs = (2060 + BLINK_DELAY) * Z.of_nat (length xs).
Proof.
  induction xs as [|x xs IH]; intros m Hrand.
  - exists []. cbn [length draws rand_after random_writes map].
    change (write_all [] ?y) with y. by rewrite set_rand_state_same.
  - destruct (random_step_machine x m Hrand)
      as (e1 & Hrun1 & Hr1 & Hc1 & Hok1 & Hd1).
    match type of Hrun1 with _ = Done _ ?m1 _ =>
      destruct (IH m1 Hrand) as (e2 & Hrun2 & Hr2 & Hc2 & Hok2 & Hd2) end.
    clear IH. cbn [rand_state write set_committed set_latched set_rand_state]
      in Hrun2, Hr2, Hc2.
    exists (e1 ++ e2). split.
    { cbn [forM_]. unfold bind. rewrite Hrun1, Hrun2.
      cbn [length draws rand_after].
      destruct (rand_step (rand_state m)) as [r st']. reflexivity. }
    rewrite rand_values_app, breathe_calls_app, forallb_app, delay_ms_app.
    rewrite Hr1, Hr2, Hc1, Hc2, Hok1, Hok2, Hd1, Hd2. cbn [length draws].
    destruct (rand_step (rand_state m)) as [r st'].
    repeat split; try reflexivity. lia.
Qed.

Lemma pattern_random_machine m :
  rand_nonneg ->
  exists evs,
    pattern_random m =
      Done tt
        (write_all (random_writes (draws rand_step 6 (rand_state m)))
           (set_rand_state (rand_after rand_step 6 (rand_state m)) m))
        evs /\
    rand_values evs = draws rand_step 6 (rand_state m) /\
    breathe_calls evs =
      map (fun r => Z.rem r LED_COUNT) (draws rand_step 6 (rand_state m)) /\
    forallb in_range evs = true /\
    delay_ms evs = 6 * (2060 + BLINK_DELAY).
Proof.
  intros Hrand.
  destruct (random_steps_machine (ramp 0 1 6) m Hrand)
    as (evs & Hrun & Hr & Hc & Hok & Hd).
  exists (EvLog TAG "Pattern: Random Breathing" [] :: evs).
  split; [|split; [exact Hr|split; [exact Hc|split; [exact Hok|]]]].
  - unfold pattern_random, ESP_LOGI, bind, emit.
    rewrite (for_lt_ramp 6) by by vm_compute.
    change (fun i : Z => random_step i) with random_step.
    by rewrite Hrun.
  - cbn [delay_ms]. rewrite Hd. reflexivity.
Qed.

Lemma draws_nonneg n : forall st,
  rand_nonneg -> Forall (fun r => 0 <= r) (draws rand_step n st).
Proof.
  induction n as [|n IH]; intros st Hrand; cbn [draws]; [constructor|].
  pose proof (Hrand st) as Hst.
  destruct (rand_step st) as [r st']. constructor; [exact Hst|by apply IH].
Qed.

Lemma random_writes_led rs :
  Forall (fun r => 0 <= r) rs -> Forall led_write (random_writes rs).
Proof.
  intros Hrs. unfold random_writes. apply Forall_fmap.
  eapply Forall_impl; [exact Hrs|]. intros r Hr. split; [|by vm_compute].
  exists (Z.rem r LED_COUNT). split; [|reflexivity].
  apply Z.rem_bound_pos; [done|by vm_compute].
Qed.

Lemma random_writes_final rs i :
  Forall (fun r => 0 <= r) rs -> 0 <= i < LED_COUNT ->
  final_duty (random_writes rs) (led_key i) =
  if decide (i ∈ map (fun r => Z.rem r LED_COUNT) rs) then Some 3 else None.
Proof.
  intros Hrs Hi.
  induction rs as [|r rs IH] using rev_ind; [done|].
  apply Forall_app in Hrs as [Hrs Hr].
  apply (proj1 (Forall_singleton _ _)) in Hr. cbn beta in Hr.
  unfold random_writes. rewrite !map_app. cbn [map].
  rewrite final_duty_snoc. fold (random_writes rs). rewrite (IH Hrs).
  assert (Hidx : 0 <= Z.rem r LED_COUNT < LED_COUNT)
    by (apply Z.rem_bound_pos; [done|by vm_compute]).
  cbn [fst snd].
  destruct (decide (led_key (Z.rem r LED_COUNT) = led_key i)) as [Heq|Hne].
  - apply led_key_inj in Heq; [|done..]. subst i.
    rewrite decide_True; [done|]. apply elem_of_app. right. left.
  - destruct (decide (i ∈ map (fun r => Z.rem r LED_COUNT) rs)) as [Hin|Hnin].
    + rewrite decide_True; [done|]. apply elem_of_app. by left.
    + rewrite decide_False; [done|]. intros Hin.
      apply elem_of_app in Hin as [Hin|Hin]; [done|].
      apply list_elem_of_singleton in Hin. by subst i.
Qed.

(** X7: when [rand] keeps its promise, [pattern_random] returns from every
    machine with the generator advanced by exactly six draws, having slept
    six breaths and six times BLINK_DELAY whatever was drawn; every LED it
    chose is left at duty 3, every LED it did not choose keeps its duty,
    and the timers and the bindings are as before. *)
Theorem pattern_random_advance m :
  rand_nonneg ->
  exists m' evs,
    pattern_random m = Done tt m' evs /\
    rand_state m' = rand_after rand_step 6 (rand_state m) /\
    delay_ms evs = 6 * (2060 + BLINK_DELAY) /\
    timers m' = timers m /\ bound m' = bound m /\
    forall i, 0 <= i < LED_COUNT ->
      committed m' !! led_key i =
      if decide (i ∈ breathe_calls evs) then Some 3
      else committed m !! led_key i.
Proof.
  intros Hrand.
  destruct (pattern_random_machine m Hrand) as (evs & Hrun & _ & Hc & _ & Hd).
  eexists _, evs. split; [exact Hrun|].
  destruct (write_all_frame
    (random_writes (draws rand_step 6 (rand_state m)))
    (set_rand_state (rand_after rand_step 6 (rand_state m)) m))
    as (Ht & Hb & Hs).
  split; [by rewrite Hs|]. split; [exact Hd|].
  split; [by rewrite Ht|]. split; [by rewrite Hb|].
  intros i Hi. rewrite (proj1 (write_all_lookup _ _ _)).
  rewrite random_writes_final by (by apply draws_nonneg || done).
  rewrite Hc. by destruct (decide _).
Qed.

(** *** Machines the task can reach *)

Lemma driven_refl m : driven m m.
Proof.
  exists [], (rand_state m). split; [constructor|].
  change (write_all [] ?y) with y. by rewrite set_rand_state_same.
Qed.

Lemma driven_trans m1 m2 m3 : driven m1 m2 -> driven m2 m3 -> driven m1 m3.
Proof.
  intros (ws1 & s1 & Hws1 & ->) (ws2 & s2 & Hws2 & ->).
  exists (ws1 ++ ws2), s2. split; [by apply Forall_app|].
  rewrite write_all_app, <- (write_all_set_rand_state ws1 s2). reflexivity.
Qed.

Lemma driven_write_all ws m : Forall led_write ws -> driven m (write_all ws m).
Proof.
  intros Hws. exists ws, (rand_state m). split; [exact Hws|].
  by rewrite set_rand_state_same.
Qed.

Lemma driven_frame m m' :
  driven m m' ->
  timers m' = timers m /\ bound m' = bound m /\
  (coherent m -> coherent m') /\
  forall k, ~ is_led_key k ->
    latched m' !! k = latched m !! k /\
    committed m' !! k = committed m !! k.
Proof.
  intros (ws & s & Hws & ->).
  destruct (write_all_frame ws (set_rand_state s m)) as (-> & -> & _).
  split; [reflexivity|]. split; [reflexivity|]. split.
  - intros Hm. by apply write_all_coherent.
  - intros k Hk.
    destruct (write_all_other ws k (set_rand_state s m)) as [Hc Hl].
    + eapply Forall_impl; [exact Hws|].
      intros w [Hw _] Heq. apply Hk. by rewrite <- Heq.
    + by rewrite Hc, Hl.
Qed.

Lemma is_led_key_led i : 0 <= i < LED_COUNT -> is_led_key (led_key i).
Proof. intros Hi. by exists i. Qed.

Lemma pass_duty_range count i : 0 <= pass_duty count i <= max_duty.
Proof. unfold pass_duty. destruct (Z.testbit count i); by vm_compute. Qed.

Lemma knight_writes_led :
  Forall led_write
    [(led_key 0, 3); (led_key 1, 3); (led_key 2, 3); (led_key 1, 3)].
Proof.
  repeat constructor; try (by vm_compute); apply is_led_key_led; by vm_compute.
Qed.

Lemma counter_writes_led counts :
  Forall led_write
    (concat (map (fun count =>
                    [(led_key 0, pass_duty count 0);
                     (led_key 1, pass_duty count 1);
                     (led_key 2, pass_duty count 2)]) counts)).
Proof.
  induction counts as [|count counts IH]; [constructor|].
  cbn [map concat]. apply Forall_app. split; [|exact IH].
  repeat constructor; try apply pass_duty_range;
    apply is_led_key_led; by vm_compute.
Qed.

Lemma rand_after_add a : forall b st,
  rand_after rand_step (a + b) st =
  rand_after rand_step b (rand_after rand_step a st).
Proof.
  induction a as [|a IH]; intros b st; [reflexivity|].
  cbn [Nat.add rand_after]. apply IH.
Qed.

Lemma draws_add a : forall b st,
  draws rand_step (a + b) st =
  draws rand_step a st ++ draws rand_step b (rand_after rand_step a st).
Proof.
  induction a as [|a IH]; intros b st; [reflexivity|].
  cbn [Nat.add draws rand_after].
  destruct (rand_step st) as [r st'] eqn:Hst. cbn [snd]. by rewrite IH.
Qed.

Lemma led_pattern_round_machine m :
  rand_nonneg ->
  exists m' evs,
    led_pattern_round m = Done tt m' evs /\
    driven m m' /\
    rand_state m' = rand_after rand_step 6 (rand_state m) /\
    (forall i, 0 <= i < LED_COUNT -> committed m' !! led_key i = Some 3) /\
    rand_values evs = draws rand_step 6 (rand_state m) /\
    length (breathe_calls evs) = 22%nat /\
    delay_ms evs = 49520 /\
    forallb in_range evs = true.
Proof.
  intros Hrand.
  pose proof (leaves_done _ _ m leaves_pattern_knight_rider) as H1.
  set (wsK := [(led_key 0, 3); (led_key 1, 3); (led_key 2, 3); (led_key 1, 3)])
    in H1.
  set (mK := write_all wsK m) in H1.
  pose proof (leaves_done _ _ mK leaves_pattern_binary_counter) as H2.
  set (wsB := concat _) in H2. set (mB := write_all wsB mK) in H2.
  destruct (pattern_random_machine mB Hrand)
    as (e3 & H3 & Hr3 & Hc3 & Hok3 & Hd3).
  assert (HsB : rand_state mB = rand_state m).
  { unfold mB, mK.
    destruct (write_all_frame wsB (write_all wsK m)) as (_ & _ & ->).
    apply write_all_frame. }
  rewrite HsB in H3, Hr3, Hc3.
  set (rs := draws rand_step 6 (rand_state m)) in *.
  set (s := rand_after rand_step 6 (rand_state m)) in *.
  eexists _, _. split.
  { unfold led_pattern_round, bind. rewrite H1, H2, H3. reflexivity. }
  assert (HK : Forall led_write wsK) by apply knight_writes_led.
  assert (HB : Forall led_write wsB) by apply counter_writes_led.
  assert (HR : Forall led_write (random_writes rs))
    by (by apply random_writes_led, draws_nonneg).
  split.
  { apply (driven_trans _ mK); [by apply driven_write_all|].
    apply (driven_trans _ mB); [by apply driven_write_all|].
    by exists (random_writes rs), s. }
  split.
  { by destruct (write_all_frame (random_writes rs) (set_rand_state s mB))
      as (_ & _ & ->). }
  split.
  { intros i Hi. apply write_all_same.
    - unfold random_writes. apply Forall_fmap. by apply Forall_true.
    - change (committed (set_rand_state s mB)) with (committed mB).
      unfold mB. rewrite (proj1 (write_all_lookup _ _ _)).
      destruct (led_index_cases i Hi) as [->|[->| ->]]; by vm_compute. }
  assert (HtK : rand_values (trace pattern_knight_rider) = [] /\
                length (breathe_calls (trace pattern_knight_rider)) = 4%nat /\
                delay_ms (trace pattern_knight_rider) = 8240 /\
                forallb in_range (trace pattern_knight_rider) = true)
    by by vm_compute.
  assert (HtB : rand_values (trace pattern_binary_counter) = [] /\
                length (breathe_calls (trace pattern_binary_counter)) = 12%nat /\
                delay_ms (trace pattern_binary_counter) = 27120 /\
                forallb in_range (trace pattern_binary_counter) = true)
    by by vm_compute.
  destruct HtK as (RK & CK & DK & OK), HtB as (RB & CB & DB & OB).
  rewrite !rand_values_app, !breathe_calls_app, !delay_ms_app, !forallb_app,
    !length_app.
  rewrite RK, RB, CK, CB, DK, DB, OK, OB, Hr3, Hc3, Hd3, Hok3.
  rewrite length_map. unfold rs. rewrite draws_length.
  repeat split; reflexivity.
Qed.

Lemma led_pattern_task_machine n : forall m,
  rand_nonneg ->
  exists m' evs,
    led_pattern_task n m = Done tt m' evs /\
    driven m m' /\
    rand_state m' = rand_after rand_step (6 * n) (rand_state m) /\
    ((0 < n)%nat ->
     forall i, 0 <= i < LED_COUNT -> committed m' !! led_key i = Some 3) /\
    rand_values evs = draws rand_step (6 * n) (rand_state m) /\
    length (breathe_calls evs) = (22 * n)%nat /\
    delay_ms evs = 49520 * Z.of_nat n /\
    forallb in_range evs = true.
Proof.
  induction n as [|n IH]; intros m Hrand.
  - exists m, []. split; [reflexivity|]. split; [apply driven_refl|].
    repeat split; try reflexivity. lia.
  - destruct (led_pattern_round_machine m Hrand)
      as (m1 & e1 & Hrun1 & Hdr1 & Hs1 & Hl1 & Hr1 & Hc1 & Hd1 & Hok1).
    destruct (IH m1 Hrand)
      as (m2 & e2 & Hrun2 & Hdr2 & Hs2 & Hl2 & Hr2 & Hc2 & Hd2 & Hok2).
    exists m2, (e1 ++ e2). split.
    { cbn [led_pattern_task]. unfold bind. rewrite Hrun1, Hrun2. reflexivity. }
    split; [by apply (driven_trans _ m1)|].
    replace (6 * S n)%nat with (6 + 6 * n)%nat by lia.
    rewrite rand_after_add, draws_add, <- Hs1.
    split; [exact Hs2|]. split.
    { intros _. destruct n as [|n'].
      - cbn in Hrun2. injection Hrun2 as <- _. exact Hl1.
      - apply Hl2. lia. }
    rewrite rand_values_app, breathe_calls_app, delay_ms_app, forallb_app,
      length_app.
    rewrite Hr1, Hr2, Hc1, Hc2, Hd1, Hd2, Hok1, Hok2.
    repeat split; try reflexivity; lia.
Qed.

(** X8: when [rand] keeps its promise, the first n rounds of
    [led_pattern_task] return from every machine, draw from [rand] exactly
    6 n times, the values the generator yields one after the other from the
    state it was in, call [led_breathe] 22 n times and sleep 49520 n ms,
    whatever was drawn. *)
Theorem led_pattern_task_progress n m :
  rand_nonneg ->
  exists m' evs,
    led_pattern_task n m = Done tt m' evs /\
    rand_values evs = draws rand_step (6 * n) (rand_state m) /\
    rand_state m' = rand_after rand_step (6 * n) (rand_state m) /\
    length (breathe_calls evs) = (22 * n)%nat /\
    delay_ms evs = 49520 * Z.of_nat n.
Proof.
  intros Hrand.
  destruct (led_pattern_task_machine n m Hrand)
    as (m' & evs & Hrun & _ & Hs & _ & Hr & Hc & Hd & _).
  by exists m', evs.
Qed.

(** X9: when [rand] keeps its promise, the first n rounds of
    [led_pattern_task] never touch the timers, the channel bindings or a
    register that is not an LED's; they keep every latched duty committed
    when it was so before; and after one round or more every LED is left at
    duty 3. *)
Theorem led_pattern_task_frame n m :
  rand_nonneg ->
  exists m' evs,
    led_pattern_task n m = Done tt m' evs /\
    timers m' = timers m /\ bound m' = bound m /\
    (coherent m -> coherent m') /\
    (forall k, ~ is_led_key k ->
       latched m' !! k = latched m !! k /\
       committed m' !! k = committed m !! k) /\
    ((0 < n)%nat ->
     forall i, 0 <= i < LED_COUNT -> committed m' !! led_key i = Some 3).
Proof.
  intros Hrand.
  destruct (led_pattern_task_machine n m Hrand)
    as (m' & evs & Hrun & Hdr & _ & Hl & _).
  destruct (driven_frame m m' Hdr) as (Ht & Hb & Hco & Hk).
  by exists m', evs.
Qed.

(** *** Startup *)

Lemma leds_cases l :
  l ∈ leds <->
  l = {| gpio := LED1_GPIO; channel := LED1_CH |} \/
  l = {| gpio := LED2_GPIO; channel := LED2_CH |} \/
  l = {| gpio := LED3_GPIO; channel := LED3_CH |}.
Proof.
  unfold leds. rewrite !elem_of_cons, elem_of_nil.
  split; [intros [?|[?|[?|[]]]]; auto|intros [?|[?|?]]; auto].
Qed.

Lemma led_init_run m :
  (accepted -> led_init m = Done tt (initialised m) led_init_events) /\
  (~ accepted ->
   exists code evs,
     led_init m = Abort code evs /\ code ≠ ESP_OK /\
     existsb is_task_create evs = false /\ rand_values evs = []).
Proof.
  clear rand_step entropy.
  set (l0 := {| gpio := LED1_GPIO; channel := LED1_CH |}).
  set (l1 := {| gpio := LED2_GPIO; channel := LED2_CH |}).
  set (l2 := {| gpio := LED3_GPIO; channel := LED3_CH |}).
  assert (Hacc : accepted <->
    timer_verdict timer_config_of_leds = ESP_OK /\
    channel_verdict (channel_config_of l0) = ESP_OK /\
    channel_verdict (channel_config_of l1) = ESP_OK /\
    channel_verdict (channel_config_of l2) = ESP_OK).
  { unfold accepted. split.
    - intros [Ht Hc]. split; [exact Ht|].
      repeat split; apply Hc, leds_cases; auto.
    - intros (Ht & H0 & H1 & H2). split; [exact Ht|].
      intros l Hl. apply leds_cases in Hl as [->|[->| ->]]; assumption. }
  rewrite Hacc. clear Hacc.
  rewrite led_init_unrolled. cbn [forM_ ramp].
  change (index leds 0) with (ret l0).
  change (index leds (0 + 1)) with (ret l1).
  change (index leds (0 + 1 + 1)) with (ret l2).
  match goal with |- context [bind ?c ?k m] =>
    remember (bind c k m) as o eqn:Ho end.
  revert Ho. unfold bind at 1. rewrite check_timer_config.
  destruct (Z.eqb_spec (timer_verdict timer_config_of_leds) ESP_OK) as [Ht|Ht].
  2: { intros ->. split; [intros (? & _); done|]. intros _. by eexists _, _. }
  unfold bind, ret. rewrite check_channel_config.
  destruct (Z.eqb_spec (channel_verdict (channel_config_of l0)) ESP_OK) as [H0|H0].
  2: { intros ->. split; [intros (_ & ? & _); done|]. intros _. by eexists _, _. }
  rewrite check_channel_config.
  destruct (Z.eqb_spec (channel_verdict (channel_config_of l1)) ESP_OK) as [H1|H1].
  2: { intros ->. split; [intros (_ & _ & ? & _); done|]. intros _.
       by eexists _, _. }
  rewrite check_channel_config.
  destruct (Z.eqb_spec (channel_verdict (channel_config_of l2)) ESP_OK) as [H2|H2].
  2: { intros ->. split; [intros (_ & _ & _ & ?); done|]. intros _.
       by eexists _, _. }
  intros ->. split; [intros _; reflexivity|].
  intros Hn. destruct Hn. done.
Qed.

Lemma initialised_lookup m st :
  let m0 := set_rand_state st (initialised m) in
  timers m0 !! (LED_MODE, LED_TIMER) = Some timer_config_of_leds /\
  rand_state m0 = st /\
  (forall l, l ∈ leds ->
     bound m0 !! (LED_MODE, channel l) = Some (channel_config_of l)) /\
  (forall i, 0 <= i < LED_COUNT -> committed m0 !! led_key i = Some 0).
Proof.
  split; [cbn; by rewrite lookup_insert_eq|]. split; [reflexivity|]. split.
  - intros l Hl. apply leds_cases in Hl as [->|[->| ->]]; cbn;
      repeat first [ apply lookup_insert_eq
                   | rewrite lookup_insert_ne by (by vm_compute) ].
  - intros i Hi. destruct (led_index_cases i Hi) as [->|[->| ->]]; cbn;
      repeat first [ apply lookup_insert_eq
                   | rewrite lookup_insert_ne by (by vm_compute) ].
Qed.

Lemma app_main_run m :
  (accepted ->
   app_main m =
     Done tt (set_rand_state entropy (initialised m))
       (EvLog TAG "ESP32 Breathing LED Pattern Demo Started" [] ::
        led_init_events ++ [EvTaskCreate "led_pattern_task" 4096 5])) /\
  (~ accepted ->
   exists code evs,
     app_main m = Abort code evs /\ code ≠ ESP_OK /\
     existsb is_task_create evs = false).
Proof.
  destruct (led_init_run m) as [Hacc Hrej]. split.
  - intros Ha. unfold app_main, ESP_LOGI, bind, emit.
    rewrite (Hacc Ha). reflexivity.
  - intros Hn. destruct (Hrej Hn) as (code & evs & Hrun & Hcode & Hno & _).
    exists code, (EvLog TAG "ESP32 Breathing LED Pattern Demo Started" [] :: evs).
    split; [|split; [exact Hcode|exact Hno]].
    unfold app_main, ESP_LOGI, bind, emit. rewrite Hrun. reflexivity.
Qed.

(** X10: [app_main] creates the pattern task exactly when the hardware
    accepts the timer and all three channels.  Then it returns with the
    machine [led_init] left, the generator seeded with the word of the
    entropy source, and [xTaskCreate] as its last event; otherwise it
    aborts with the code of the rejection, before seeding and without
    creating a task. *)
Theorem app_main_outcome m :
  (accepted ->
   app_main m =
     Done tt (set_rand_state entropy (initialised m))
       (EvLog TAG "ESP32 Breathing LED Pattern Demo Started" [] ::
        led_init_events ++ [EvTaskCreate "led_pattern_task" 4096 5]) /\
   rand_state (set_rand_state entropy (initialised m)) = entropy /\
   forall i, 0 <= i < LED_COUNT ->
     committed (set_rand_state entropy (initialised m)) !! led_key i = Some 0) /\
  (~ accepted ->
   exists code evs,
     app_main m = Abort code evs /\ code ≠ ESP_OK /\
     existsb is_task_create evs = false).
Proof.
  destruct (app_main_run m) as [Hacc Hrej]. split; [|exact Hrej].
  intros Ha. split; [exact (Hacc Ha)|].
  destruct (initialised_lookup m entropy) as (_ & Hs & _ & Hc).
  split; [exact Hs|exact Hc].
Qed.

(** X11: when the hardware accepts and [rand] keeps its promise, after
    [app_main] the first n rounds of the task return; their draws are the
    values the generator yields from the entropy seed; the timer [led_init]
    configured is still configured, every channel they write is a channel
    [led_init] bound, with that binding, and every LED holds a committed
    duty in [0, 1023]. *)
Theorem task_after_app_main n m :
  accepted -> rand_nonneg ->
  exists m0 evs0 m' evs,
    app_main m = Done tt m0 evs0 /\
    led_pattern_task n m0 = Done tt m' evs /\
    rand_values evs = draws rand_step (6 * n) entropy /\
    timers m' !! (LED_MODE, LED_TIMER) = Some timer_config_of_leds /\
    (forall mode ch d, EvSetDuty mode ch d ∈ evs ->
       exists l, l ∈ leds /\ ch = channel l /\
         bound m' !! (mode, ch) = Some (channel_config_of l)) /\
    (forall i, 0 <= i < LED_COUNT ->
       exists d, committed m' !! led_key i = Some d /\ 0 <= d <= max_duty).
Proof.
  intros Ha Hrand.
  destruct (app_main_run m) as [Hmain _]. specialize (Hmain Ha).
  set (m0 := set_rand_state entropy (initialised m)) in *.
  destruct (led_pattern_task_machine n m0 Hrand)
    as (m' & evs & Hrun & Hdr & _ & Hl & Hr & _ & _ & Hok).
  destruct (driven_frame m0 m' Hdr) as (Ht & Hb & _ & _).
  destruct (initialised_lookup m entropy) as (Hti & _ & Hbi & Hci).
  fold m0 in Hti, Hbi, Hci.
  eexists m0, _, m', evs. split; [exact Hmain|]. split; [exact Hrun|].
  split; [exact Hr|]. split; [rewrite Ht; exact Hti|]. split.
  - intros mode ch d Hin.
    apply list_elem_of_In in Hin.
    pose proof (proj1 (forallb_forall _ _) Hok _ Hin) as Hev.
    cbn [in_range] in Hev.
    apply andb_prop in Hev as [Hev _]. apply andb_prop in Hev as [Hev _].
    apply andb_prop in Hev as [Hmode Hch].
    apply Z.eqb_eq in Hmode. subst mode.
    unfold is_led_channel in Hch. apply existsb_exists in Hch as (l & Hl' & Hch).
    apply Z.eqb_eq in Hch. subst ch. apply list_elem_of_In in Hl'.
    exists l. split; [exact Hl'|]. split; [reflexivity|].
    rewrite Hb. exact (Hbi l Hl').
  - intros i Hi. destruct n as [|n].
    + injection Hrun as <- _. exists 0.
      split; [exact (Hci i Hi)|by vm_compute].
    + exists 3. split; [apply Hl; [lia|exact Hi]|by vm_compute].
Qed.

(** X12: [led_init] stops at the first rejection.  When it aborts, the
    event before the abort is the rejected configuration call, carrying the
    code of the abort; the calls before it, three at most, were all
    accepted, and no call follows it. *)
Theorem led_init_first_rejection m code evs :
  led_init m = Abort code evs ->
  exists pre rejected,
    evs = pre ++ [rejected] /\
    verdict_of rejected = Some code /\ code ≠ ESP_OK /\
    Forall (fun e => verdict_of e = Some ESP_OK) pre /\
    (length pre <= 3)%nat.
Proof.
  clear rand_step entropy.
  set (l0 := {| gpio := LED1_GPIO; channel := LED1_CH |}).
  set (l1 := {| gpio := LED2_GPIO; channel := LED2_CH |}).
  set (l2 := {| gpio := LED3_GPIO; channel := LED3_CH |}).
  rewrite led_init_unrolled. cbn [forM_ ramp].
  change (index leds 0) with (ret l0).
  change (index leds (0 + 1)) with (ret l1).
  change (index leds (0 + 1 + 1)) with (ret l2).
  unfold bind at 1. rewrite check_timer_config.
  destruct (Z.eqb_spec (timer_verdict timer_config_of_leds) ESP_OK) as [Ht|Ht].
  2: { intros [= <- <-]. exists [], (EvTimerConfig timer_config_of_leds
         (timer_verdict timer_config_of_leds)).
       repeat split; [done|constructor|cbn; lia]. }
  unfold bind, ret. rewrite check_channel_config.
  destruct (Z.eqb_spec (channel_verdict (channel_config_of l0)) ESP_OK)
    as [H0|H0].
  2: { intros [= <- <-]. eexists [_], _.
       split; [reflexivity|]. repeat split; [done|by repeat constructor|cbn; lia]. }
  rewrite check_channel_config.
  destruct (Z.eqb_spec (channel_verdict (channel_config_of l1)) ESP_OK)
    as [H1|H1].
  2: { intros [= <- <-]. eexists [_; _], _.
       split; [reflexivity|]. repeat split; [done|by repeat constructor|cbn; lia]. }
  rewrite check_channel_config.
  destruct (Z.eqb_spec (channel_verdict (channel_config_of l2)) ESP_OK)
    as [H2|H2].
  2: { intros [= <- <-]. eexists [_; _; _], _.
       split; [reflexivity|]. repeat split; [done|by repeat constructor|cbn; lia]. }
  intros Habs. discriminate Habs.
Qed.

(** X13: for every LED index i in [0, 3), the machine [led_breathe i]
    returns does not depend on the duty LED i had: a breath after any
    [led_set_brightness i d], and a second breath after a first, end in the
    machine of one breath. *)
Theorem led_breathe_idempotent i d m :
  0 <= i < LED_COUNT ->
  exists m' evs,
    led_breathe i m = Done tt m' evs /\
    (led_breathe i ;; led_breathe i) m = Done tt m' (evs ++ evs) /\
    exists evs0,
      (led_set_brightness i d ;; led_breathe i) m = Done tt m' (evs0 ++ evs).
Proof.
  intros Hi.
  exists (write (led_key i) 3 m), (trace (led_breathe i)).
  split; [apply (led_breathe_effect i Hi)|]. split.
  - unfold bind. rewrite !(led_breathe_effect i Hi), write_write. reflexivity.
  - eexists. unfold bind.
    rewrite (led_set_brightness_effect i d Hi), (led_breathe_effect i Hi),
      write_write. reflexivity.
Qed.

End Firmware.

(** ** The theorems at concrete inputs *)

Lemma led_breathe_final_duty_at_1 :
  0 <= 1 < LED_COUNT /\
  exists m' evs,
    led_breathe 1 power_on = Done tt m' evs /\
    last (duties_written evs) = Some 3 /\
    committed m' !! led_key 1 = Some 3.
Proof.
  assert (H : 0 <= 1 < LED_COUNT) by by vm_compute.
  split; [exact H|]. exact (led_breathe_final_duty 1 power_on H).
Defined.

Lemma led_breathe_duty_sequence_at_2 :
  0 <= 2 < LED_COUNT /\
  exists m' evs up down,
    led_breathe 2 power_on = Done tt m' evs /\
    duties_written evs = up ++ down /\
    up = ramp 0 10 103 /\ down = ramp 1023 (-10) 103 /\
    nondecreasing up = true /\ nonincreasing down = true /\
    maximum (duties_written evs) = Some max_duty /\
    max_duty = 1023 /\
    length (duties_written evs) = (103 + 103)%nat.
Proof.
  assert (H : 0 <= 2 < LED_COUNT) by by vm_compute.
  split; [exact H|]. exact (led_breathe_duty_sequence 2 power_on H).
Defined.

Lemma led_breathe_rise_last_duty_at_0 :
  0 <= 0 < LED_COUNT /\
  exists m' evs,
    led_breathe_rise 0 power_on = Done tt m' evs /\
    duties_written evs = ramp 0 10 103 /\
    last (duties_written evs) = Some 1020 /\
    maximum (duties_written evs) = Some 1020 /\
    committed m' !! led_key 0 = Some 1020 /\
    max_duty = 1023.
Proof.
  assert (H : 0 <= 0 < LED_COUNT) by by vm_compute.
  split; [exact H|]. exact (led_breathe_rise_last_duty 0 power_on H).
Defined.

Lemma led_pattern_round_breathe_count_iso :
  rand_nonneg iso_rand_step /\
  exists m1 e1 m2 e2 m3 e3,
    pattern_knight_rider power_on = Done tt m1 e1 /\
    pattern_binary_counter m1 = Done tt m2 e2 /\
    pattern_random iso_rand_step m2 = Done tt m3 e3 /\
    led_pattern_round iso_rand_step power_on = Done tt m3 (e1 ++ e2 ++ e3) /\
    length (breathe_calls e1) = 4%nat /\
    length (breathe_calls e2) = sum_list (popcount 3 <$> ramp 0 1 8) /\
    length (breathe_calls e2) = 12%nat /\
    length (breathe_calls e3) = 6%nat /\
    length (breathe_calls (e1 ++ e2 ++ e3)) = 22%nat.
Proof.
  assert (H : rand_nonneg iso_rand_step).
  { intros st. apply (Z.mod_pos_bound _ 32768). reflexivity. }
  split; [exact H|].
  exact (led_pattern_round_breathe_count iso_rand_step power_on H).
Defined.

Lemma pattern_random_reproducible_iso :
  rand_nonneg iso_rand_step /\
  exists m1' e1 m2' e2,
    (srand 42 ;; pattern_random iso_rand_step) power_on = Done tt m1' e1 /\
    (srand 42 ;; pattern_random iso_rand_step)
      (write (LED_MODE, LED2_CH) 512 power_on) = Done tt m2' e2 /\
    length (rand_values e1) = 6%nat /\
    breathe_calls e1 =
      map (fun r => Z.rem r LED_COUNT) (draws iso_rand_step 6 42) /\
    Forall (fun i => 0 <= i < LED_COUNT) (breathe_calls e1) /\
    breathe_calls e1 = breathe_calls e2.
Proof.
  assert (H : rand_nonneg iso_rand_step).
  { intros st. apply (Z.mod_pos_bound _ 32768). reflexivity. }
  split; [exact H|].
  exact (pattern_random_reproducible iso_rand_step 42 power_on
           (write (LED_MODE, LED2_CH) 512 power_on) H).
Defined.

Lemma led_pattern_task_in_range_iso :
  rand_nonneg iso_rand_step /\
  exists m' evs,
    led_pattern_task iso_rand_step 2 power_on = Done tt m' evs /\
    forallb in_range evs = true.
Proof.
  assert (H : rand_nonneg iso_rand_step).
  { intros st. apply (Z.mod_pos_bound _ 32768). reflexivity. }
  split; [exact H|].
  exact (led_pattern_task_in_range iso_rand_step 2 power_on H).
Defined.

Lemma led_set_brightness_frame_at_1 :
  0 <= 1 < LED_COUNT /\
  exists m',
    led_set_brightness 1 512 power_on =
      Done tt m' [EvEnter_led_set_brightness 1 512;
                  EvSetDuty LED_MODE (led_key 1).2 512;
                  EvUpdateDuty LED_MODE (led_key 1).2] /\
    committed m' !! led_key 1 = Some 512 /\
    (forall k, k ≠ led_key 1 ->
       committed m' !! k = committed power_on !! k /\
       latched m' !! k = latched power_on !! k) /\
    (forall j, 0 <= j < LED_COUNT -> j ≠ 1 ->
       committed m' !! led_key j = committed power_on !! led_key j).
Proof.
  assert (H : 0 <= 1 < LED_COUNT) by by vm_compute.
  split; [exact H|]. exact (led_set_brightness_frame 1 512 power_on H).
Defined.

(** ** Runs from power-on *)

Example led_breathe_0_leaves_3 :
  match led_breathe 0 power_on with
  | Done _ m _ => committed m !! led_key 0
  | _ => None
  end = Some 3.
Proof. by vm_compute. Qed.

Example led_breathe_rise_0_peak :
  last (duties_written (trace (led_breathe_rise 0))) = Some 1020.
Proof. by vm_compute. Qed.

Example led_breathe_3_leaves_leds :
  led_breathe 3 power_on =
  Undefined [EvEnter_led_breathe 3; EvEnter_led_set_brightness 3 0].
Proof. by vm_compute. Qed.

Example binary_counter_calls :
  breathe_calls (trace pattern_binary_counter) =
  [0; 1; 0; 1; 2; 0; 2; 1; 2; 0; 1; 2].
Proof. by vm_compute. Qed.

Example random_calls_seed_1 :
  breathe_calls (trace (pattern_random iso_rand_step)) = [2; 1; 0; 1; 1; 2].
Proof. by vm_compute. Qed.

Example led_init_accepted :
  is_done (led_init accept_timer accept_channel power_on) = true.
Proof. by vm_compute. Qed.

Example led_init_channel_rejected :
  led_init accept_timer reject_channel power_on =
  Abort ESP_FAIL
    [EvTimerConfig timer_config_of_leds ESP_OK;
     EvChannelConfig
       (channel_config_of {| gpio := LED1_GPIO; channel := LED1_CH |})
       ESP_FAIL].
Proof. by vm_compute. Qed.

(** ** The further theorems at concrete inputs *)


Lemma led_breathe_frame_at_1 :
  0 <= 1 < LED_COUNT /\
  exists m' evs,
    led_breathe 1 power_on = Done tt m' evs /\
    timers m' = timers power_on /\ bound m' = bound power_on /\
    rand_state m' = rand_state power_on /\
    latched m' !! led_key 1 = committed m' !! led_key 1 /\
    forall k, k ≠ led_key 1 ->
      latched m' !! k = latched power_on !! k /\
      committed m' !! k = committed power_on !! k.
Proof.
  assert (H : 0 <= 1 < LED_COUNT) by by vm_compute.
  split; [exact H|]. exact (led_breathe_frame 1 power_on H).
Defined.

Lemma led_breathe_duration_at_0 :
  0 <= 0 < LED_COUNT /\
  exists evs,
    (forall m, exists m', led_breathe 0 m = Done tt m' evs) /\
    delay_ms evs = (103 + 103) * STEP_DELAY /\
    delay_ms evs = 2060.
Proof.
  assert (H : 0 <= 0 < LED_COUNT) by by vm_compute.
  split; [exact H|]. exact (led_breathe_duration 0 H).
Defined.

Lemma binary_counter_pass_display_at_5 :
  0 <= 5 /\
  exists m' evs,
    binary_counter_pass 5 power_on = Done tt m' evs /\
    (forall i, 0 <= i < LED_COUNT ->
       committed m' !! led_key i = Some (pass_duty 5 i)) /\
    length (breathe_calls evs) = popcount 3 5 /\
    delay_ms evs = BLINK_DELAY + 2060 * Z.of_nat (popcount 3 5).
Proof.
  assert (H : 0 <= 5) by by vm_compute.
  split; [exact H|]. exact (binary_counter_pass_display 5 power_on H).
Defined.

Lemma pattern_random_advance_iso :
  rand_nonneg iso_rand_step /\
  exists m' evs,
    pattern_random iso_rand_step power_on = Done tt m' evs /\
    rand_state m' = rand_after iso_rand_step 6 (rand_state power_on) /\
    delay_ms evs = 6 * (2060 + BLINK_DELAY) /\
    timers m' = timers power_on /\ bound m' = bound power_on /\
    forall i, 0 <= i < LED_COUNT ->
      committed m' !! led_key i =
      if decide (i ∈ breathe_calls evs) then Some 3
      else committed power_on !! led_key i.
Proof.
  assert (H : rand_nonneg iso_rand_step).
  { intros st. apply (Z.mod_pos_bound _ 32768). reflexivity. }
  split; [exact H|]. exact (pattern_random_advance iso_rand_step power_on H).
Defined.

Lemma led_pattern_task_progress_iso :
  rand_nonneg iso_rand_step /\
  exists m' evs,
    led_pattern_task iso_rand_step 2 power_on = Done tt m' evs /\
    rand_values evs = draws iso_rand_step (6 * 2) (rand_state power_on) /\
    rand_state m' = rand_after iso_rand_step (6 * 2) (rand_state power_on) /\
    length (breathe_calls evs) = (22 * 2)%nat /\
    delay_ms evs = 49520 * Z.of_nat 2.
Proof.
  assert (H : rand_nonneg iso_rand_step).
  { intros st. apply (Z.mod_pos_bound _ 32768). reflexivity. }
  split; [exact H|].
  exact (led_pattern_task_progress iso_rand_step 2 power_on H).
Defined.

Lemma led_pattern_task_frame_iso :
  rand_nonneg iso_rand_step /\
  exists m' evs,
    led_pattern_task iso_rand_step 1 power_on = Done tt m' evs /\
    timers m' = timers power_on /\ bound m' = bound power_on /\
    (coherent power_on -> coherent m') /\
    (forall k, ~ is_led_key k ->
       latched m' !! k = latched power_on !! k /\
       committed m' !! k = committed power_on !! k) /\
    ((0 < 1)%nat ->
     forall i, 0 <= i < LED_COUNT -> committed m' !! led_key i = Some 3).
Proof.
  assert (H : rand_nonneg iso_rand_step).
  { intros st. apply (Z.mod_pos_bound _ 32768). reflexivity. }
  split; [exact H|].
  exact (led_pattern_task_frame iso_rand_step 1 power_on H).
Defined.

Lemma app_main_outcome_accepting :
  accepted accept_timer accept_channel /\
  app_main accept_timer accept_channel 42 power_on =
    Done tt (set_rand_state 42 (initialised power_on))
      (EvLog TAG "ESP32 Breathing LED Pattern Demo Started" [] ::
       led_init_events ++ [EvTaskCreate "led_pattern_task" 4096 5]).
Proof.
  assert (H : accepted accept_timer accept_channel)
    by (split; [reflexivity|intros l _; reflexivity]).
  split; [exact H|].
  exact (proj1 (proj1 (app_main_outcome accept_timer accept_channel 42
                         power_on) H)).
Defined.

Lemma task_after_app_main_iso :
  accepted accept_timer accept_channel /\
  rand_nonneg iso_rand_step /\
  exists m0 evs0 m' evs,
    app_main accept_timer accept_channel 42 power_on = Done tt m0 evs0 /\
    led_pattern_task iso_rand_step 1 m0 = Done tt m' evs /\
    rand_values evs = draws iso_rand_step (6 * 1) 42 /\
    timers m' !! (LED_MODE, LED_TIMER) = Some timer_config_of_leds /\
    (forall mode ch d, EvSetDuty mode ch d ∈ evs ->
       exists l, l ∈ leds /\ ch = channel l /\
         bound m' !! (mode, ch) = Some (channel_config_of l)) /\
    (forall i, 0 <= i < LED_COUNT ->
       exists d, committed m' !! led_key i = Some d /\ 0 <= d <= max_duty).
Proof.
  assert (Ha : accepted accept_timer accept_channel)
    by (split; [reflexivity|intros l _; reflexivity]).
  assert (H : rand_nonneg iso_rand_step).
  { intros st. apply (Z.mod_pos_bound _ 32768). reflexivity. }
  split; [exact Ha|]. split; [exact H|].
  exact (task_after_app_main iso_rand_step accept_timer accept_channel 42 1
           power_on Ha H).
Defined.

Lemma led_init_first_rejection_at_channel :
  led_init accept_timer reject_channel power_on =
    Abort ESP_FAIL
      [EvTimerConfig timer_config_of_leds ESP_OK;
       EvChannelConfig
         (channel_config_of {| gpio := LED1_GPIO; channel := LED1_CH |})
         ESP_FAIL] /\
  exists pre rejected,
    [EvTimerConfig timer_config_of_leds ESP_OK;
     EvChannelConfig
       (channel_config_of {| gpio := LED1_GPIO; channel := LED1_CH |})
       ESP_FAIL] = pre ++ [rejected] /\
    verdict_of rejected = Some ESP_FAIL /\ ESP_FAIL ≠ ESP_OK /\
    Forall (fun e => verdict_of e = Some ESP_OK) pre /\
    (length pre <= 3)%nat.
Proof.
  assert (H : led_init accept_timer reject_channel power_on =
    Abort ESP_FAIL
      [EvTimerConfig timer_config_of_leds ESP_OK;
       EvChannelConfig
         (channel_config_of {| gpio := LED1_GPIO; channel := LED1_CH |})
         ESP_FAIL]) by by vm_compute.
  split; [exact H|].
  exact (led_init_first_rejection accept_timer reject_channel power_on _ _ H).
Defined.

Lemma led_breathe_idempotent_at_2 :
  0 <= 2 < LED_COUNT /\
  exists m' evs,
    led_breathe 2 power_on = Done tt m' evs /\
    (led_breathe 2 ;; led_breathe 2) power_on = Done tt m' (evs ++ evs) /\
    exists evs0,
      (led_set_brightness 2 700 ;; led_breathe 2) power_on =
        Done tt m' (evs0 ++ evs).
Proof.
  assert (H : 0 <= 2 < LED_COUNT) by by vm_compute.
  split; [exact H|]. exact (led_breathe_idempotent 2 700 power_on H).
Defined.
